(** * MoodFlix: the scan session, the emotion stabiliser and the result accumulator

    A shallow embedding of the page component [Home] (the page module of the
    app), of [src/lib/emotionMapping.ts] and of [src/lib/types.ts], with the
    properties of the coordination core stated and proved over it.

    Conventions of the embedding.
    - A JavaScript string is the list of its UTF-16 code units.
    - A JavaScript number that the code uses as a counter or a millisecond
      clock is an integer ([Z]), a timer handle is a [positive].  A score or
      a confidence is a finite double, written as the rational it denotes
      ([Q]): comparisons are exact, an addition is rounded to the nearest
      double ([Double.add]) and the literal [0.3] of the mapping stands for
      the double nearest to it ([Double.literal]); NaN, the infinities and
      overflow are outside the model.  The threshold [0.9] of the detection
      handler is compared as nine tenths, which decides the same for every
      double: none lies between nine tenths and the double nearest to it.
    - React state cells and refs are fields of one record; a handler is a
      function from state to state; the host (timers, clock, network) is a
      part of that record, driven by events. *)

From Stdlib Require Import Ascii String QArith Qround Qminmax Qabs Lqa.
From stdpp Require Import base decidable option numbers list gmap strings.

Local Open Scope Z_scope.

(** ** JavaScript strings *)

Abbreviation JSString := (list N).

(** The code units of an ASCII literal. *)
Definition js (s : string) : JSString :=
  (λ a, N_of_ascii a) <$> list_ascii_of_string s.

(** ** src/lib/types.ts *)

Record YouTubeVideo := mkVideo {
  id : JSString;
  title : JSString;
  thumbnail : JSString;
  channelTitle : option JSString
}.

(** ** The accumulate-and-deduplicate step of [fetchVideos]

    [[
      setVideos(prevVideos => {
        const existingIds = new Set(prevVideos.map(v => v.id));
        const newVideos = data.videos.filter(v => !existingIds.has(v.id));
        return [...prevVideos, ...newVideos];
      });
    ]] *)
Module Accumulator.

Definition mergeVideos (prevVideos dataVideos : list YouTubeVideo)
  : list YouTubeVideo :=
  let existingIds : gset JSString := list_to_set (id <$> prevVideos) in
  let newVideos := filter (λ v, id v ∉ existingIds) dataVideos in
  prevVideos ++ newVideos.

(** The ids held by an accumulator, in display order. *)
Definition ids (vs : list YouTubeVideo) : list JSString := id <$> vs.

(** Merging a sequence of responses in their order of completion. *)
Definition mergeAll (acc : list YouTubeVideo)
    (responses : list (list YouTubeVideo)) : list YouTubeVideo :=
  foldl mergeVideos acc responses.

End Accumulator.

(** ** Double-precision arithmetic

    The numbers of [mapExpressionToEmotion] are IEEE 754 doubles: a sum is
    the exact sum rounded to the nearest double, ties to the even
    significand. *)

Module Double.

(** [2^e]. *)
Definition pow2 (e : Z) : Q :=
  match e with
  | Z0 => 1
  | Zpos p => inject_Z (Zpos (2 ^ p))
  | Zneg p => 1 # (2 ^ p)
  end.

(** For [a > 0], the exponent [e] with [2^e <= a < 2^(e+1)]: the difference
    of the bit lengths of numerator and denominator, or one less. *)
Definition binade (a : Q) : Z :=
  let e0 := Z.log2 (Qnum a) - Z.log2 (Zpos (Qden a)) in
  if Qle_bool (pow2 e0) a then e0 else e0 - 1.

(** The integer nearest to [q], the even one of the two at a tie. *)
Definition nearestEven (q : Q) : Z :=
  let f := Qfloor q in
  match (q - inject_Z f ?= 1 # 2)%Q with
  | Lt => f
  | Gt => f + 1
  | Eq => if Z.even f then f else f + 1
  end.

(** The double nearest to [x]: a significand of 53 bits, and below
    [2^-1022] the fixed spacing [2^-1074] of the subnormal numbers. *)
Definition round (x : Q) : Q :=
  match Qnum x with
  | Z0 => 0
  | _ =>
      let a := Qabs x in
      let e := Z.max (binade a) (-1022) in
      let ulp := pow2 (e - 52) in
      let m := inject_Z (nearestEven (a / ulp)) in
      if Qnum x <? 0 then (- (m * ulp))%Q else (m * ulp)%Q
  end.

(** [a + b] on doubles. *)
Definition add (a b : Q) : Q := round (a + b).

(** The value of a decimal literal of the source. *)
Definition literal (q : Q) : Q := round q.

End Double.

Arguments Double.round : simpl never.
Arguments Double.add : simpl never.
Arguments Double.literal : simpl never.

(** ** src/lib/emotionMapping.ts *)

Inductive Emotion := happy | sad | neutral | surprised.

#[global] Instance Emotion_eq_dec : EqDecision Emotion.
Proof. solve_decision. Defined.

Record EmotionConfig := mkConfig {
  label : JSString;
  emoji : JSString;
  color : JSString;
  keywords : list JSString;
  description : JSString
}.

Definition emotionMapping (e : Emotion) : EmotionConfig :=
  match e with
  | happy =>
      {| label := js "Happy";
         emoji := [0xD83D; 0xDE0A]%N;
         color := js "var(--color-happy)";
         keywords := js <$>
           [ "romantic hindi songs 2024"; "bengali romantic songs";
             "bollywood romantic songs"; "bangla romantic songs";
             "hindi love songs"; "arijit singh romantic songs";
             "bengali love songs"; "hindi romantic hits";
             "bangla love songs 2024" ]%string;
         description :=
           js "You look happy! Here are romantic songs for you. "
             ++ [0xD83D; 0xDC95]%N |}
  | sad =>
      {| label := js "Sad";
         emoji := [0xD83D; 0xDE22]%N;
         color := js "var(--color-sad)";
         keywords := js <$>
           [ "sad hindi songs 2024"; "bengali sad songs";
             "bollywood sad songs"; "bangla sad songs";
             "hindi heartbreak songs"; "arijit singh sad songs";
             "bengali emotional songs"; "hindi sad music";
             "bangla heartbreak songs" ]%string;
         description :=
           js "Feeling sad? Here are emotional songs for you. "
             ++ [0xD83D; 0xDC94]%N |}
  | neutral =>
      {| label := js "Neutral";
         emoji := [0xD83D; 0xDE10]%N;
         color := js "var(--color-neutral)";
         keywords := js <$>
           [ "hindi romantic songs mix"; "bengali mix songs";
             "bollywood hits 2024"; "bangla popular songs";
             "hindi top songs"; "bollywood party songs";
             "bengali trending songs"; "hindi mix playlist";
             "bangla best songs" ]%string;
         description :=
           js "In a calm mood. Here are romantic & mix songs for you. "
             ++ [0xD83C; 0xDFB5]%N |}
  | surprised =>
      {| label := js "Surprised";
         emoji := [0xD83D; 0xDE2E]%N;
         color := js "var(--color-surprised)";
         keywords := js <$>
           [ "hindi romantic songs mix"; "bengali mix songs";
             "bollywood hits 2024"; "bangla popular songs";
             "hindi top songs"; "bollywood party songs";
             "bengali trending songs"; "hindi mix playlist";
             "bangla best songs" ]%string;
         description :=
           js "Here are some mix songs for you! " ++ [0xD83C; 0xDFB5]%N |}
  end.

(** [keywords[Math.floor(Math.random() * keywords.length)]], with the value
    [u] of [Math.random()] passed in; an index past the end reads
    [undefined], here [None]. *)
Definition getRandomKeyword (emotion : Emotion) (u : Q) : option JSString :=
  let keywords := keywords (emotionMapping emotion) in
  match Qfloor (u * inject_Z (Z.of_nat (length keywords))) with
  | Z.neg _ => None
  | i => keywords !! Z.to_nat i
  end.

(** The scores face-api reports for one frame. *)
Record Expressions := mkExpressions {
  x_happy : Q;
  x_sad : Q;
  x_neutral : Q;
  x_surprised : Q;
  x_angry : Q;
  x_fearful : Q;
  x_disgusted : Q
}.

(** [Object.entries(relevantExpressions)], in insertion order. *)
Definition relevantExpressions (expressions : Expressions)
  : list (Emotion * Q) :=
  [ (happy, x_happy expressions);
    (sad, x_sad expressions);
    (neutral, Double.add (x_neutral expressions) (x_surprised expressions)) ].

(** One iteration of the loop over the entries: the pair is
    [(maxEmotion, maxScore)]. *)
Definition scanEntry (acc entry : Emotion * Q) : Emotion * Q :=
  if Qlt_le_dec (snd acc) (snd entry) then entry else acc.

Definition mapExpressionToEmotion (expressions : Expressions) : Emotion :=
  let '(maxEmotion, maxScore) :=
    foldl scanEntry (neutral, 0%Q) (relevantExpressions expressions) in
  if Qlt_le_dec maxScore (Double.literal 0.3) then neutral else maxEmotion.

(** ** String.prototype.trim *)

(** WhiteSpace and LineTerminator code units of ECMAScript. *)
Definition isWhiteSpace (c : N) : bool :=
  (bool_decide (c ∈ [0x9; 0xA; 0xB; 0xC; 0xD; 0x20; 0xA0; 0x1680; 0x2028;
                     0x2029; 0x202F; 0x205F; 0x3000; 0xFEFF])
   || (0x2000 <=? c) && (c <=? 0x200A))%N.

Fixpoint trimStart (s : JSString) : JSString :=
  match s with
  | c :: s' => if isWhiteSpace c then trimStart s' else s
  | [] => []
  end.

Definition trimEnd (s : JSString) : JSString := rev (trimStart (rev s)).

Definition trim (s : JSString) : JSString := trimEnd (trimStart s).

(** Truthiness of a string: the empty string is falsy. *)
Definition truthy (s : JSString) : bool :=
  match s with [] => false | _ => true end.

(** ** encodeURIComponent

    [encodeURIComponent] throws a [URIError] for a string with a lone
    surrogate: a code unit in D800..DBFF that no unit in DC00..DFFF
    follows, or a unit in DC00..DFFF that follows no such unit. *)

Definition isLeadSurrogate (c : N) : bool :=
  ((0xD800 <=? c) && (c <=? 0xDBFF))%N.

Definition isTrailSurrogate (c : N) : bool :=
  ((0xDC00 <=? c) && (c <=? 0xDFFF))%N.

Fixpoint isWellFormed (s : JSString) : bool :=
  match s with
  | [] => true
  | c :: s' =>
      if isLeadSurrogate c then
        match s' with
        | d :: s'' => isTrailSurrogate d && isWellFormed s''
        | [] => false
        end
      else if isTrailSurrogate c then false
      else isWellFormed s'
  end.

(** The message of that [URIError]; its text is the engine's, here V8's. *)
Definition uriErrorMessage : JSString := js "URI malformed".

(** ** The page component [Home] *)

Module Page.

(** Timer handles of the host are positive integers, so a stored handle is
    always truthy. *)
Abbreviation TimerId := positive.

(** Consent and camera state. *)
Record Camera := mkCamera {
  showConsent : bool;
  cameraActive : bool;
  cameraError : option JSString;
  isScanning : bool;
  scanCountdown : Z
}.

(** Emotion detection state. *)
Record Detection := mkDetection {
  currentEmotion : option Emotion;
  searchKeyword : option JSString;
  lastSearchedEmotion : option Emotion
}.

(** Video state (the selected video only feeds the player and is left out). *)
Record Videos := mkVideos {
  videos : list YouTubeVideo;
  isLoadingVideos : bool;
  videoError : option JSString;
  hasLoadedVideos : bool
}.

(** The refs: timer handles, the stabiliser's run and the rate limiter. *)
Record Refs := mkRefs {
  emotionTimerRef : option TimerId;
  countdownTimerRef : option TimerId;
  stableEmotionRef : option Emotion;
  stableCountRef : Z;
  lastFetchTimeRef : Z
}.

(** The host: [Date.now()], the table of active timers shared by
    [setTimeout] and [setInterval], and the requests sent so far.  A
    timeout is kept with its due time and the emotion its closure captured,
    an interval with its period.  [triggered] is a history variable: the
    times at which the debounce callback ran. *)
Record Host := mkHost {
  clock : Z;
  nextTimer : TimerId;
  timeouts : list (TimerId * (Z * Emotion));
  intervals : list (TimerId * Z);
  requests : list (Z * JSString);
  triggered : list Z
}.

Record State := mkState {
  cam : Camera;
  det : Detection;
  vid : Videos;
  searchQuery : JSString;
  refs : Refs;
  host : Host
}.

Definition Handler := State → State.

Definition seq (f g : Handler) : Handler := λ s, g (f s).
Infix ">>>" := seq (at level 61, left associativity).

Definition skip : Handler := λ s, s.

(** *** State setters *)

Definition withCam (f : Camera → Camera) : Handler := λ s,
  mkState (f (cam s)) (det s) (vid s) (searchQuery s) (refs s) (host s).
Definition withDet (f : Detection → Detection) : Handler := λ s,
  mkState (cam s) (f (det s)) (vid s) (searchQuery s) (refs s) (host s).
Definition withVid (f : Videos → Videos) : Handler := λ s,
  mkState (cam s) (det s) (f (vid s)) (searchQuery s) (refs s) (host s).
Definition withRefs (f : Refs → Refs) : Handler := λ s,
  mkState (cam s) (det s) (vid s) (searchQuery s) (f (refs s)) (host s).
Definition withHost (f : Host → Host) : Handler := λ s,
  mkState (cam s) (det s) (vid s) (searchQuery s) (refs s) (f (host s)).

Definition setShowConsent (b : bool) : Handler :=
  withCam (λ c, mkCamera b (cameraActive c) (cameraError c) (isScanning c)
                  (scanCountdown c)).
Definition setCameraActive (b : bool) : Handler :=
  withCam (λ c, mkCamera (showConsent c) b (cameraError c) (isScanning c)
                  (scanCountdown c)).
Definition setCameraError (e : option JSString) : Handler :=
  withCam (λ c, mkCamera (showConsent c) (cameraActive c) e (isScanning c)
                  (scanCountdown c)).
Definition setIsScanning (b : bool) : Handler :=
  withCam (λ c, mkCamera (showConsent c) (cameraActive c) (cameraError c) b
                  (scanCountdown c)).
Definition setScanCountdown (n : Z) : Handler :=
  withCam (λ c, mkCamera (showConsent c) (cameraActive c) (cameraError c)
                  (isScanning c) n).

Definition setCurrentEmotion (e : option Emotion) : Handler :=
  withDet (λ d, mkDetection e (searchKeyword d) (lastSearchedEmotion d)).
Definition setSearchKeyword (k : option JSString) : Handler :=
  withDet (λ d, mkDetection (currentEmotion d) k (lastSearchedEmotion d)).
Definition setLastSearchedEmotion (e : option Emotion) : Handler :=
  withDet (λ d, mkDetection (currentEmotion d) (searchKeyword d) e).

Definition setVideos (f : list YouTubeVideo → list YouTubeVideo) : Handler :=
  withVid (λ v, mkVideos (f (videos v)) (isLoadingVideos v) (videoError v)
                  (hasLoadedVideos v)).
Definition setIsLoadingVideos (b : bool) : Handler :=
  withVid (λ v, mkVideos (videos v) b (videoError v) (hasLoadedVideos v)).
Definition setVideoError (e : option JSString) : Handler :=
  withVid (λ v, mkVideos (videos v) (isLoadingVideos v) e (hasLoadedVideos v)).
Definition setHasLoadedVideos (b : bool) : Handler :=
  withVid (λ v, mkVideos (videos v) (isLoadingVideos v) (videoError v) b).

Definition setSearchQuery (q : JSString) : Handler := λ s,
  mkState (cam s) (det s) (vid s) q (refs s) (host s).

Definition setEmotionTimerRef (t : option TimerId) : Handler :=
  withRefs (λ r, mkRefs t (countdownTimerRef r) (stableEmotionRef r)
                   (stableCountRef r) (lastFetchTimeRef r)).
Definition setCountdownTimerRef (t : option TimerId) : Handler :=
  withRefs (λ r, mkRefs (emotionTimerRef r) t (stableEmotionRef r)
                   (stableCountRef r) (lastFetchTimeRef r)).
Definition setStableEmotionRef (e : option Emotion) : Handler :=
  withRefs (λ r, mkRefs (emotionTimerRef r) (countdownTimerRef r) e
                   (stableCountRef r) (lastFetchTimeRef r)).
Definition setStableCountRef (n : Z) : Handler :=
  withRefs (λ r, mkRefs (emotionTimerRef r) (countdownTimerRef r)
                   (stableEmotionRef r) n (lastFetchTimeRef r)).
Definition setLastFetchTimeRef (t : Z) : Handler :=
  withRefs (λ r, mkRefs (emotionTimerRef r) (countdownTimerRef r)
                   (stableEmotionRef r) (stableCountRef r) t).

(** *** Host operations *)

(** [clearTimeout] and [clearInterval] act on the same table of timers. *)
Definition clearTimer (t : TimerId) : Handler :=
  withHost (λ h, mkHost (clock h) (nextTimer h)
                   (filter (λ x, x.1 ≠ t) (timeouts h))
                   (filter (λ x, x.1 ≠ t) (intervals h))
                   (requests h) (triggered h)).

(** [if (ref.current) clearTimeout(ref.current)]. *)
Definition clearRef (r : option TimerId) : Handler :=
  match r with
  | Some t => clearTimer t
  | None => skip
  end.

(** [setTimeout(callback, delay)] for the debounce callback that captured
    [emotion]; the new handle is [nextTimer] of the state before. *)
Definition setTimeout (emotion : Emotion) (delay : Z) : Handler :=
  withHost (λ h, mkHost (clock h) (Pos.succ (nextTimer h))
                   (timeouts h ++ [(nextTimer h, (clock h + delay, emotion))])
                   (intervals h) (requests h) (triggered h)).

Definition setInterval (period : Z) : Handler :=
  withHost (λ h, mkHost (clock h) (Pos.succ (nextTimer h)) (timeouts h)
                   (intervals h ++ [(nextTimer h, period)])
                   (requests h) (triggered h)).

(** The request [fetch(`/api/youtube?q=${encodeURIComponent(keyword)}`)]
    leaves, recorded with the time and the keyword. *)
Definition sendRequest (keyword : JSString) : Handler :=
  withHost (λ h, mkHost (clock h) (nextTimer h) (timeouts h) (intervals h)
                   (requests h ++ [(clock h, keyword)]) (triggered h)).

Definition recordTrigger : Handler :=
  withHost (λ h, mkHost (clock h) (nextTimer h) (timeouts h) (intervals h)
                   (requests h) (triggered h ++ [clock h])).

Definition elapse (ms : N) : Handler :=
  withHost (λ h, mkHost (clock h + Z.of_N ms) (nextTimer h) (timeouts h)
                   (intervals h) (requests h) (triggered h)).

(** *** fetchVideos *)

(** How the request of one [fetchVideos] call ends: [fetch] rejects, or
    [response.json()] rejects, or a body arrives.  A body has the shape of
    [YouTubeApiResponse] of src/lib/types.ts ([JsonBody]), or it parses to
    a value whose [videos] is not an array, so that [data.videos.filter]
    throws ([JsonWithoutVideos]). *)
Inductive FetchOutcome :=
  | NetworkFailure (message : JSString)
  | BodyNotJson (ok : bool) (message : JSString)
  | JsonBody (ok : bool) (error : option JSString)
      (dataVideos : list YouTubeVideo)
  | JsonWithoutVideos (ok : bool) (error : option JSString).

(** [a || b] on an optional string: [undefined] and the empty string are
    falsy. *)
Definition orElse (a : option JSString) (b : JSString) : JSString :=
  match a with
  | Some x => if truthy x then x else b
  | None => b
  end.

(** The statements of the [try] block up to the state update: either the
    message of the error thrown, or [data.videos], which the [try] block
    does not read itself ([None] when it is not an array). *)
Definition awaitResponse (o : FetchOutcome)
  : JSString + option (list YouTubeVideo) :=
  match o with
  | NetworkFailure message => inl message
  | BodyNotJson _ message => inl message
  | JsonBody ok error dataVideos =>
      if ok then inr (Some dataVideos)
      else inl (orElse error (js "Failed to fetch videos"))
  | JsonWithoutVideos ok error =>
      if ok then inr None
      else inl (orElse error (js "Failed to fetch videos"))
  end.

(** [fetchVideos] up to its first [await].  The URL is built inside the
    [try] block: when [encodeURIComponent] throws, no request leaves, and
    [catch] and [finally] run at once. *)
Definition fetchVideos (keyword : JSString) : Handler :=
  setIsLoadingVideos true >>>
  setVideoError None >>>
  (if isWellFormed keyword then sendRequest keyword
   else setVideoError (Some uriErrorMessage) >>> setIsLoadingVideos false).

(** The cleanup of the unmount effect. *)
Definition cleanup : Handler :=
  (λ s, clearRef (emotionTimerRef (refs s)) s) >>>
  (λ s, clearRef (countdownTimerRef (refs s)) s).

(** An updater that throws does so when React runs it for the next render,
    outside the [try] block of the caller: the error is uncaught, and the
    page is unmounted. *)
Definition renderThrows : Handler := cleanup.

(** [fetchVideos] from the moment its request ends: [try] or [catch], then
    [finally]; the updater handed to [setVideos] runs after them. *)
Definition fetchVideosSettled (o : FetchOutcome) : Handler :=
  match awaitResponse o with
  | inr (Some dataVideos) =>
      setVideos (λ prevVideos, Accumulator.mergeVideos prevVideos dataVideos) >>>
      setHasLoadedVideos true >>>
      setIsLoadingVideos false
  | inr None =>
      setHasLoadedVideos true >>>
      setIsLoadingVideos false >>>
      renderThrows
  | inl message =>
      setVideoError (Some message) >>>
      setIsLoadingVideos false
  end.

(** *** handleEmotionDetected *)

(** The callback handed to [setTimeout], for the captured [emotion] and the
    value [u] that [Math.random()] returns when it runs. *)
Definition emotionTimerCallback (emotion : Emotion) (u : Q) : Handler :=
  match getRandomKeyword emotion u with
  | Some keyword =>
      setSearchKeyword (Some keyword) >>>
      fetchVideos keyword >>>
      setLastSearchedEmotion (Some emotion) >>>
      (λ s, setLastFetchTimeRef (clock (host s)) s) >>>
      recordTrigger
  | None => skip
  end.

(** The run of agreeing detections:
    [[
      if (emotion === stableEmotionRef.current) { stableCountRef.current++; }
      else { stableEmotionRef.current = emotion; stableCountRef.current = 1; }
    ]] *)
Definition trackStable (emotion : Emotion) : Handler := λ s,
  if decide (Some emotion = stableEmotionRef (refs s))
  then setStableCountRef (stableCountRef (refs s) + 1) s
  else (setStableEmotionRef (Some emotion) >>> setStableCountRef 1) s.

(** The debounce: a pending trigger is cleared and a new one is set to run
    after 300 ms. *)
Definition scheduleFetch (emotion : Emotion) : Handler :=
  (λ s, clearRef (emotionTimerRef (refs s)) s) >>>
  (λ s, (setTimeout emotion 300 >>>
         setEmotionTimerRef (Some (nextTimer (host s)))) s).

Definition handleEmotionDetected (emotion : Emotion) (confidence : Q)
  : Handler := λ s,
  if Qlt_le_dec confidence 0.9 then s else
  let s := trackStable emotion s in
  if stableCountRef (refs s) <? 2 then s else
  let s := setCurrentEmotion (Some emotion) s in
  let now := clock (host s) in
  if now - lastFetchTimeRef (refs s) <? 3000 then s else
  scheduleFetch emotion s.

(** *** The scan session *)

Definition SCAN_DURATION : Z := 5.

(** The callback handed to [setInterval]: the updater of [scanCountdown]
    with the state changes it makes along the way. *)
Definition countdownTick : Handler := λ s,
  let prev := scanCountdown (cam s) in
  if prev <=? 1 then
    (clearRef (countdownTimerRef (refs s)) >>>
     setCameraActive false >>>
     setIsScanning false >>>
     setScanCountdown 0) s
  else setScanCountdown (prev - 1) s.

Definition startCountdown : Handler :=
  setScanCountdown SCAN_DURATION >>>
  (λ s, clearRef (countdownTimerRef (refs s)) s) >>>
  (λ s, (setInterval 1000 >>>
         setCountdownTimerRef (Some (nextTimer (host s)))) s).

Definition handleAcceptConsent : Handler :=
  setShowConsent false >>>
  setCameraActive true >>>
  setIsScanning true >>>
  startCountdown.

Definition handleDeclineConsent : Handler :=
  setShowConsent false >>>
  setCameraError (Some (js
    "Camera access was declined. You can refresh the page to try again.")).

Definition handleCameraStop : Handler :=
  setCameraActive false >>>
  setIsScanning false >>>
  (λ s, clearRef (emotionTimerRef (refs s)) s) >>>
  (λ s, clearRef (countdownTimerRef (refs s)) s).

Definition handleCameraError (error : JSString) : Handler :=
  setCameraError (Some error) >>>
  setCameraActive false >>>
  setIsScanning false.

Definition handleScanAgain : Handler :=
  setCameraError None >>>
  setCameraActive true >>>
  setIsScanning true >>>
  setCurrentEmotion None >>>
  setSearchKeyword None >>>
  setVideos (λ _, []) >>>
  setHasLoadedVideos false >>>
  setLastSearchedEmotion None >>>
  setStableEmotionRef None >>>
  setStableCountRef 0 >>>
  setLastFetchTimeRef 0 >>>
  startCountdown.

Definition handleSearch : Handler := λ s,
  if truthy (trim (searchQuery s)) then
    (setSearchKeyword (Some (trim (searchQuery s))) >>>
     setCurrentEmotion None >>>
     fetchVideos (trim (searchQuery s)) >>>
     (if cameraActive (cam s) then
        setCameraActive false >>>
        setIsScanning false >>>
        (λ s', clearRef (countdownTimerRef (refs s')) s')
      else skip)) s
  else s.

(** *** Events *)

(** What can happen to the page: the user acts, the camera feed calls
    back, time passes, a timer of the host fires, a request ends, the page
    unmounts. *)
Inductive Event :=
  | AcceptConsent
  | DeclineConsent
  | EmotionDetected (emotion : Emotion) (confidence : Q)
  | CameraStop
  | CameraError (error : JSString)
  | ScanAgain
  | ChangeQuery (q : JSString)
  | SubmitSearch
  | Elapse (ms : N)
  | TimeoutFires (t : TimerId) (u : Q)
  | IntervalFires (t : TimerId)
  | FetchSettles (o : FetchOutcome)
  | Unmount.

(** [Math.random()] returns a value in [[0, 1)]. *)
Definition isRandom (u : Q) : bool :=
  Qle_bool 0 u && negb (Qle_bool 1 u).

(** A timeout runs once, not before it is due, and leaves the table. *)
Definition fireTimeout (t : TimerId) (u : Q) : Handler := λ s,
  match list_find (λ x, x.1 = t) (timeouts (host s)) with
  | Some (_, (_, (due, emotion))) =>
      if (due <=? clock (host s)) && isRandom u then
        (withHost (λ h, mkHost (clock h) (nextTimer h)
                          (filter (λ x, x.1 ≠ t) (timeouts h))
                          (intervals h) (requests h) (triggered h)) >>>
         emotionTimerCallback emotion u) s
      else s
  | None => s
  end.

(** An interval runs its callback while it is in the table. *)
Definition fireInterval (t : TimerId) : Handler := λ s,
  if bool_decide (t ∈ (intervals (host s)).*1) then countdownTick s else s.

Definition step (s : State) (ev : Event) : State :=
  match ev with
  | AcceptConsent => handleAcceptConsent s
  | DeclineConsent => handleDeclineConsent s
  | EmotionDetected emotion confidence =>
      handleEmotionDetected emotion confidence s
  | CameraStop => handleCameraStop s
  | CameraError error => handleCameraError error s
  | ScanAgain => handleScanAgain s
  | ChangeQuery q => setSearchQuery q s
  | SubmitSearch => handleSearch s
  | Elapse ms => elapse ms s
  | TimeoutFires t u => fireTimeout t u s
  | IntervalFires t => fireInterval t s
  | FetchSettles o => fetchVideosSettled o s
  | Unmount => cleanup s
  end.

Definition run (s : State) (evs : list Event) : State := foldl step s evs.

(** The page as first rendered, at time [t0]. *)
Definition init (t0 : Z) : State :=
  {| cam := mkCamera true false None false 0;
     det := mkDetection None None None;
     vid := mkVideos [] false None false;
     searchQuery := [];
     refs := mkRefs None None None 0 0;
     host := mkHost t0 1%positive [] [] [] [] |}.

End Page.


(** ** Vocabulary of the statements *)

(** A video with the given id, for examples. *)
Definition song (i : string) : YouTubeVideo :=
  mkVideo (js i) (js "title") (js "thumbnail") None.

(** The set of ids an accumulator holds. *)
Definition idSet (vs : list YouTubeVideo) : gset JSString :=
  list_to_set (Accumulator.ids vs).

(** The outcomes of a request that are errors: the network fails, the
    body cannot be parsed, the status is not 2xx, or the body has no array
    of videos. *)
Definition endsInError (o : Page.FetchOutcome) : bool :=
  match o with
  | Page.NetworkFailure _ => true
  | Page.BodyNotJson _ _ => true
  | Page.JsonBody ok _ _ => negb ok
  | Page.JsonWithoutVideos _ _ => true
  end.

(** A session that accepted consent at time 100000 and saw two confident
    happy samples: the happy fetch is scheduled and has not fired. *)
Definition happyScheduled : Page.State :=
  Page.run (Page.init 100000)
    [Page.AcceptConsent;
     Page.EmotionDetected happy 0.95;
     Page.EmotionDetected happy 0.92].


(** Two accepted samples in a row carry the same label. *)
Fixpoint agreeingPair (l : list Emotion) : bool :=
  match l with
  | a :: l' =>
      match l' with
      | b :: _ => bool_decide (a = b) || agreeingPair l'
      | [] => false
      end
  | [] => false
  end.

(** A fetch has been triggered by the detection handler: its debounce
    trigger is pending, or has run. *)
Definition fetchTriggered (s : Page.State) : bool :=
  match Page.timeouts (Page.host s), Page.triggered (Page.host s) with
  | [], [] => false
  | _, _ => true
  end.


(** One scan session: no restart among the events. *)
Definition sameSession (evs : list Page.Event) : bool :=
  forallb (λ ev, match ev with Page.ScanAgain => false | _ => true end) evs.

(** The events that start a scan. *)
Definition startsScan (ev : Page.Event) : bool :=
  match ev with
  | Page.AcceptConsent | Page.ScanAgain => true
  | _ => false
  end.

(** What goes on during a scan besides the countdown: detections, passing
    time, debounce triggers running, typing, and fetches ending in any way
    that leaves the page mounted. *)
Definition background (ev : Page.Event) : bool :=
  match ev with
  | Page.EmotionDetected _ _ | Page.Elapse _ | Page.TimeoutFires _ _
  | Page.ChangeQuery _ => true
  | Page.FetchSettles o =>
      match Page.awaitResponse o with
      | inr None => false
      | _ => true
      end
  | _ => false
  end.

(** A run of the countdown interval [t]. *)
Definition isTick (t : Page.TimerId) (ev : Page.Event) : bool :=
  match ev with
  | Page.IntervalFires t' => bool_decide (t' = t)
  | _ => false
  end.

Fixpoint ticks (t : Page.TimerId) (evs : list Page.Event) : Z :=
  match evs with
  | [] => 0
  | ev :: evs' => (if isTick t ev then 1 else 0) + ticks t evs'
  end.

(** During a scan only background events and ticks of its interval
    happen. *)
Definition scanEvents (t : Page.TimerId) (evs : list Page.Event) : bool :=
  forallb (λ ev, background ev || isTick t ev) evs.

(** The countdown after [k] ticks of the interval [t]. *)
Definition counting (t : Page.TimerId) (k : Z) (s : Page.State) : Prop :=
  Page.countdownTimerRef (Page.refs s) = Some t
  ∧ Page.scanCountdown (Page.cam s) = Z.max 0 (5 - k)
  ∧ Page.isScanning (Page.cam s) = bool_decide (k < 5)
  ∧ Page.cameraActive (Page.cam s) = bool_decide (k < 5)
  ∧ Page.intervals (Page.host s)
    = (if bool_decide (k < 5) then [(t, 1000)] else []).

(** The score of each label the mapping tells apart; [surprised] has no
    bucket of its own and counts into [neutral]. *)
Definition combinedScore (x : Expressions) (e : Emotion) : Q :=
  match e with
  | happy => x_happy x
  | sad => x_sad x
  | neutral | surprised => Double.add (x_neutral x) (x_surprised x)
  end.

Definition maxCombined (x : Expressions) : Q :=
  Qmax (combinedScore x happy)
    (Qmax (combinedScore x sad) (combinedScore x neutral)).

(** What holds of every state the page reaches: the scanning flag follows
    the camera, scanning goes with a positive countdown, the only timers in
    the table are the ones the refs hold, and handles are fresh. *)
Record Inv (s : Page.State) : Prop := mkInv {
  inv_camera :
    Page.isScanning (Page.cam s) = Page.cameraActive (Page.cam s);
  inv_countdown :
    Page.isScanning (Page.cam s) = true → 0 < Page.scanCountdown (Page.cam s);
  inv_timeouts :
    ∀ x, x ∈ Page.timeouts (Page.host s) →
         Page.emotionTimerRef (Page.refs s) = Some x.1;
  inv_intervals :
    ∀ x, x ∈ Page.intervals (Page.host s) →
         Page.countdownTimerRef (Page.refs s) = Some x.1;
  inv_fresh_emotion :
    ∀ t, Page.emotionTimerRef (Page.refs s) = Some t →
         (t < Page.nextTimer (Page.host s))%positive;
  inv_fresh_countdown :
    ∀ t, Page.countdownTimerRef (Page.refs s) = Some t →
         (t < Page.nextTimer (Page.host s))%positive;
  inv_distinct :
    ∀ t, Page.emotionTimerRef (Page.refs s) = Some t →
         Page.countdownTimerRef (Page.refs s) ≠ Some t
}.



(** ** The search route (the [GET] handler of the API route)

    The handler reads the query and the API key, calls the YouTube search
    API and reshapes its items.  Here the request it sends and the way the
    upstream call ends are separated, so that what the handler answers
    without calling YouTube can be told from what it answers after. *)

Module Route.

(** [YouTubeSearchItem], with its nested fields flattened. *)
Record YouTubeSearchItem := mkItem {
  id_kind : JSString;
  id_videoId : JSString;
  snippet_title : JSString;
  snippet_channelTitle : JSString;
  thumbnails_medium_url : JSString;
  thumbnails_high_url : JSString
}.

(** What [response.json()] of the upstream response gives: nothing usable
    (the body is not JSON, or is [null], so that reading a field throws),
    or an object with its [items] and its [error.message], either of which
    may be absent. *)
Inductive UpstreamBody :=
  | Unusable
  | Json (items : option (list YouTubeSearchItem))
      (errorMessage : option JSString).

(** How the call to YouTube ends: [fetch] rejects, or a response arrives. *)
Inductive Upstream :=
  | Rejects
  | Answers (status : Z) (body : UpstreamBody).

(** The body of the route's answer: [{ error }] or [{ videos }]. *)
Inductive Body :=
  | ErrorBody (error : JSString)
  | VideosBody (videos : list YouTubeVideo).

Record Response := mkResponse {
  status : Z;
  body : Body
}.

(** [response.ok]. *)
Definition isOk (status : Z) : bool := (200 <=? status) && (status <=? 299).

(** [!query || query.trim().length === 0]. *)
Definition queryMissing (query : option JSString) : bool :=
  match query with
  | None => true
  | Some q => negb (truthy q) || (Z.of_nat (length (trim q)) =? 0)
  end.

(** [!apiKey]. *)
Definition keyMissing (apiKey : option JSString) : bool :=
  match apiKey with
  | None => true
  | Some k => negb (truthy k)
  end.

(** The search parameters set on the YouTube URL, in the order they are
    set. *)
Definition searchParams (query apiKey : JSString)
  : list (JSString * JSString) :=
  [ (js "part", js "snippet");
    (js "q", query);
    (js "type", js "video");
    (js "maxResults", js "50");
    (js "videoEmbeddable", js "true");
    (js "safeSearch", js "moderate");
    (js "videoCategoryId", js "10");
    (js "key", apiKey) ].

(** The handler up to the upstream call: an answer at once, or the
    parameters of the request to YouTube. *)
Definition prepare (query apiKey : option JSString)
  : Response + list (JSString * JSString) :=
  if queryMissing query then
    inl (mkResponse 400 (ErrorBody (js "Search query is required")))
  else if keyMissing apiKey then
    inl (mkResponse 500 (ErrorBody (js "YouTube API is not configured")))
  else
    inr (searchParams (default [] query) (default [] apiKey)).

(** [item.snippet.thumbnails.high?.url || item.snippet.thumbnails.medium?.url],
    for thumbnails shaped as the interface declares them. *)
Definition thumbnailOf (item : YouTubeSearchItem) : JSString :=
  if truthy (thumbnails_high_url item)
  then thumbnails_high_url item
  else thumbnails_medium_url item.

Definition toVideo (item : YouTubeSearchItem) : YouTubeVideo :=
  {| id := id_videoId item;
     title := snippet_title item;
     thumbnail := thumbnailOf item;
     channelTitle := Some (snippet_channelTitle item) |}.

(** [data.items.filter(...).map(...)]. *)
Definition sanitize (items : list YouTubeSearchItem) : list YouTubeVideo :=
  toVideo <$> filter (λ item, id_kind item = js "youtube#video") items.

(** The answer of the [catch] block. *)
Definition caught : Response :=
  mkResponse 500 (ErrorBody (js "An error occurred while fetching videos")).

(** [NextResponse.json(body, { status })] inside the [try] block: building
    a response throws for a status outside 200..599 and for a status that
    allows no body (204, 205 and 304 in that range), and the [catch] block
    answers instead. *)
Definition respond (status : Z) (b : Body) : Response :=
  if (200 <=? status) && (status <=? 599)
     && negb (bool_decide (status ∈ [204; 205; 304]))
  then mkResponse status b
  else caught.

(** The handler from the upstream call on. *)
Definition finish (upstream : Upstream) : Response :=
  match upstream with
  | Rejects => caught
  | Answers status body =>
      if negb (isOk status) then
        match body with
        | Unusable => caught
        | Json _ _ =>
            respond status (ErrorBody (js "Failed to fetch videos from YouTube"))
        end
      else
        match body with
        | Json (Some items) _ => respond 200 (VideosBody (sanitize items))
        | _ => caught
        end
  end.

Definition GET (query apiKey : option JSString) (upstream : Upstream)
  : Response :=
  match prepare query apiKey with
  | inl answer => answer
  | inr _ => finish upstream
  end.

(** What the page's [fetchVideos] reads of an answer of the route: a
    [{ videos }] body, or an [{ error }] body, which has no [videos]. *)
Definition clientSees (r : Response) : option Page.FetchOutcome :=
  match body r with
  | VideosBody vs => Some (Page.JsonBody (isOk (status r)) None vs)
  | ErrorBody e => Some (Page.JsonWithoutVideos (isOk (status r)) (Some e))
  end.

(** The messages the route can put into an [{ error }] body. *)
Definition errorMessages : list JSString :=
  [ js "Search query is required";
    js "YouTube API is not configured";
    js "Failed to fetch videos from YouTube";
    js "An error occurred while fetching videos" ].

End Route.


(** Every request sent so far is for a query that passes the route's
    check. *)
Definition requestsPass (s : Page.State) : Prop :=
  Forall (λ x, Route.queryMissing (Some x.2) = false)
    (Page.requests (Page.host s)).


(** ** The camera feed ([src/components/CameraFeed.tsx])

    Of [detectEmotions], what reaches the page: the label the mapping gives
    for the scores of the frame, with [expressions[emotion]] as its
    confidence. *)

Module Feed.

(** [expressions[emotion]]. *)
Definition scoreOf (expressions : Expressions) (emotion : Emotion) : Q :=
  match emotion with
  | happy => x_happy expressions
  | sad => x_sad expressions
  | neutral => x_neutral expressions
  | surprised => x_surprised expressions
  end.

(** The arguments of [onEmotionDetected(emotion, emotionConfidence)]. *)
Definition detection (expressions : Expressions) : Emotion * Q :=
  let emotion := mapExpressionToEmotion expressions in
  let emotionConfidence := scoreOf expressions emotion in
  (emotion, emotionConfidence).

(** The page's handler run on the detection of a frame. *)
Definition onFrame (expressions : Expressions) : Page.Handler :=
  Page.handleEmotionDetected (detection expressions).1
    (detection expressions).2.

(** The message [startCamera] reports for a failure of [getUserMedia] or
    [play]: by the name of the error, and none at all for a thrown value
    that is not an [Error] ([None] for the argument). *)
Definition cameraFailureMessage (errorName : option JSString)
  : option JSString :=
  match errorName with
  | None => None
  | Some name =>
      if decide (name = js "NotAllowedError") then
        Some (js "Camera access was denied. Please allow camera access in your browser settings.")
      else if decide (name = js "NotFoundError") then
        Some (js "No camera found. Please connect a camera and try again.")
      else
        Some (js "Failed to access camera. Please check your permissions.")
  end.

(** The [catch] block of [startCamera] with the page's [handleCameraError]
    as [onError]. *)
Definition onCameraFailure (errorName : option JSString) : Page.Handler :=
  match cameraFailureMessage errorName with
  | Some message => Page.handleCameraError message
  | None => Page.skip
  end.

End Feed.

(** The scores of a frame are probabilities: none is negative and together
    they are at most 1. *)
Definition isDistribution (x : Expressions) : Prop :=
  (0 <= x_happy x ∧ 0 <= x_sad x ∧ 0 <= x_neutral x ∧ 0 <= x_surprised x
   ∧ 0 <= x_angry x ∧ 0 <= x_fearful x ∧ 0 <= x_disgusted x
   ∧ x_happy x + x_sad x + x_neutral x + x_surprised x
       + x_angry x + x_fearful x + x_disgusted x <= 1)%Q.


(** The accepted labels since the last restart, oldest first. *)
Definition noteLabel (labels : list Emotion) (ev : Page.Event)
  : list Emotion :=
  match ev with
  | Page.ScanAgain => []
  | Page.EmotionDetected emotion confidence =>
      if Qle_bool 0.9 confidence then labels ++ [emotion] else labels
  | _ => labels
  end.

Definition runLabels (evs : list Page.Event) : list Emotion :=
  foldl noteLabel [] evs.

(** How many of the first elements of [l] are [e]. *)
Fixpoint leadingRun (e : Emotion) (l : list Emotion) : Z :=
  match l with
  | x :: l' => if decide (x = e) then 1 + leadingRun e l' else 0
  | [] => 0
  end.

(** The length of the run of equal labels that ends the list. *)
Definition trailingRun (l : list Emotion) : Z :=
  match last l with
  | Some e => leadingRun e (rev l)
  | None => 0
  end.


(** ** What the page renders

    The conditions of the JSX of [Home] and of [VideoGrid] that decide
    which part is on screen, and with it which handlers the user can
    reach. *)

Module View.

(** The camera section: [cameraError ? card : cameraActive ? feed :
    !showConsent && placeholder]. *)
Inductive CameraSection :=
  | ErrorCard (message : JSString)
  | FeedMounted
  | Placeholder (songsLoaded : bool)
  | Nothing.

Definition cameraSection (s : Page.State) : CameraSection :=
  let otherwise :=
    if Page.cameraActive (Page.cam s) then FeedMounted
    else if negb (Page.showConsent (Page.cam s))
         then Placeholder (Page.hasLoadedVideos (Page.vid s))
         else Nothing in
  match Page.cameraError (Page.cam s) with
  | Some message => if truthy message then ErrorCard message else otherwise
  | None => otherwise
  end.

Definition feedMounted (s : Page.State) : bool :=
  match cameraSection s with FeedMounted => true | _ => false end.

(** [VideoGrid]: the error panel, else the skeletons, else the empty
    state, else the cards. *)
Inductive Grid :=
  | ErrorState (message : JSString)
  | Skeletons
  | EmptyState
  | Cards (videos : list YouTubeVideo).

Definition videoGrid (s : Page.State) : Grid :=
  let otherwise :=
    if Page.isLoadingVideos (Page.vid s) then Skeletons
    else match Page.videos (Page.vid s) with
         | [] => EmptyState
         | vs => Cards vs
         end in
  match Page.videoError (Page.vid s) with
  | Some message => if truthy message then ErrorState message else otherwise
  | None => otherwise
  end.

(** Which events the page offers in a state: the consent buttons while the
    modal is rendered, Try Again on the error card and Scan Again on the
    placeholder, the stop button of a mounted feed, and the callbacks of a
    feed that is or has been mounted ([mounted]); typing, searching, timers
    and the network are not tied to what is rendered. *)
Definition offered (s : Page.State) (mounted : bool) (ev : Page.Event)
  : bool :=
  match ev with
  | Page.AcceptConsent | Page.DeclineConsent =>
      Page.showConsent (Page.cam s)
  | Page.ScanAgain =>
      match cameraSection s with
      | ErrorCard _ | Placeholder _ => true
      | _ => false
      end
  | Page.CameraStop => feedMounted s
  | Page.EmotionDetected _ _ | Page.CameraError _ => mounted
  | _ => true
  end.

(** A step of the page together with the record of whether the feed has
    been mounted; an event that is not offered does not happen. *)
Definition uiStep (sm : Page.State * bool) (ev : Page.Event)
  : Page.State * bool :=
  if offered sm.1 sm.2 ev
  then (Page.step sm.1 ev, sm.2 || feedMounted (Page.step sm.1 ev))
  else sm.

Definition uiRun (t0 : Z) (evs : list Page.Event) : Page.State * bool :=
  foldl uiStep (Page.init t0, false) evs.

End View.

(** ** The camera stream of the feed

    Of [CameraFeed], the media stream.  [startCamera] stores the stream
    that [getUserMedia] gives in [streamRef]; [stopCamera], the handler of
    the stop button, stops its tracks and calls [onStop]; the cleanup of the
    effect that starts the camera cancels the animation frame and nothing
    else.  The page renders the feed only while its camera section is the
    feed, so the feed never sees [isActive] turn false: it is unmounted. *)

Module Stream.

(** The refs of a mounted feed: whether [streamRef.current] holds a
    stream. *)
Record Feed := mkFeed {
  streamRef : bool
}.

(** The page, the feed it has mounted, if any, and the number of streams
    given by [getUserMedia] whose tracks have not been stopped. *)
Record World := mkWorld {
  page : Page.State;
  feed : option Feed;
  liveStreams : nat
}.

(** What happens: an event of the page, or [getUserMedia] resolving in
    [startCamera] and the video playing. *)
Inductive Event :=
  | OfPage (ev : Page.Event)
  | StreamStarts.

(** [stopCamera] up to its call of [onStop]:
    [[
      if (streamRef.current) {
        streamRef.current.getTracks().forEach(track => track.stop());
        streamRef.current = null;
      }
    ]] *)
Definition stopCamera (w : World) : World :=
  match feed w with
  | Some (mkFeed true) =>
      mkWorld (page w) (Some (mkFeed false)) (pred (liveStreams w))
  | _ => w
  end.

(** React renders the page in its new state [p]: a feed that comes on
    screen is mounted with empty refs; a feed that leaves the screen is
    unmounted, and the cleanup of its effects does not touch the stream. *)
Definition render (p : Page.State) (w : World) : World :=
  match View.feedMounted p, feed w with
  | true, None => mkWorld p (Some (mkFeed false)) (liveStreams w)
  | true, Some f => mkWorld p (Some f) (liveStreams w)
  | false, _ => mkWorld p None (liveStreams w)
  end.

(** The events after which the page itself is unmounted. *)
Definition unmounts (ev : Page.Event) : bool :=
  match ev with
  | Page.Unmount => true
  | Page.FetchSettles o =>
      match Page.awaitResponse o with
      | inr None => true
      | _ => false
      end
  | _ => false
  end.

(** A step of the page with its feed.  [onStop] is called by [stopCamera]
    only, so [CameraStop] is the click on the stop button of a mounted
    feed.  There is no next world ([None]) when the page is unmounted, and
    for a stream that starts or a click on the stop button when no feed is
    mounted. *)
Definition step (w : World) (ev : Event) : option World :=
  match ev with
  | StreamStarts =>
      match feed w with
      | Some _ => Some (mkWorld (page w) (Some (mkFeed true))
                          (S (liveStreams w)))
      | None => None
      end
  | OfPage Page.CameraStop =>
      match feed w with
      | Some _ =>
          let w := stopCamera w in
          Some (render (Page.step (page w) Page.CameraStop) w)
      | None => None
      end
  | OfPage ev =>
      if unmounts ev then None
      else Some (render (Page.step (page w) ev) w)
  end.

Definition run (w : World) (evs : list Event) : option World :=
  foldl (λ ow ev, ow ≫= λ w, step w ev) (Some w) evs.

Definition init (t0 : Z) : World := mkWorld (Page.init t0) None 0.

End Stream.

(** While the consent modal is up nothing of the camera has started. *)
Definition waiting (sm : Page.State * bool) : Prop :=
  Page.showConsent (Page.cam sm.1) = true →
  Page.cameraActive (Page.cam sm.1) = false
  ∧ Page.cameraError (Page.cam sm.1) = None
  ∧ sm.2 = false
  ∧ Page.timeouts (Page.host sm.1) = []
  ∧ Page.intervals (Page.host sm.1) = [].




(** * Properties of the accumulator *)

Section AccumulatorFacts.
Import Accumulator.

Implicit Types prev resp : list YouTubeVideo.

Lemma mergeVideos_unfold prev resp :
  mergeVideos prev resp = prev ++ filter (λ v, id v ∉ ids prev) resp.
Proof.
  unfold mergeVideos, ids. f_equal.
  apply list_filter_iff. intros v. by rewrite elem_of_list_to_set.
Qed.

(** Existing items are never replaced: the old accumulator is a prefix. *)
Lemma mergeVideos_prefix prev resp : prev `prefix_of` mergeVideos prev resp.
Proof. rewrite mergeVideos_unfold. by apply prefix_app_r. Qed.

(** New items arrive in the order of the response. *)
Lemma mergeVideos_suffix_sublist prev resp :
  drop (length prev) (mergeVideos prev resp) `sublist_of` resp.
Proof.
  rewrite mergeVideos_unfold, drop_app_length. apply sublist_filter.
Qed.

Lemma elem_of_ids_mergeVideos prev resp x :
  x ∈ ids (mergeVideos prev resp) ↔ x ∈ ids prev ∨ x ∈ ids resp.
Proof.
  rewrite mergeVideos_unfold. unfold ids.
  rewrite fmap_app, elem_of_app. split.
  - intros [H | H]; [by left |]. right.
    apply list_elem_of_fmap in H as (v & -> & Hv).
    apply list_elem_of_filter in Hv as [_ Hv].
    apply list_elem_of_fmap. eauto.
  - intros [H | H]; [by left |].
    destruct (decide (x ∈ id <$> prev)) as [Hin | Hnin]; [by left |].
    right. apply list_elem_of_fmap in H as (v & -> & Hv).
    apply list_elem_of_fmap. exists v. split; [done |].
    by apply list_elem_of_filter.
Qed.

Lemma idSet_mergeVideos prev resp :
  idSet (mergeVideos prev resp) = idSet prev ∪ idSet resp.
Proof.
  apply set_eq. intros x. unfold idSet.
  rewrite elem_of_union, !elem_of_list_to_set.
  apply elem_of_ids_mergeVideos.
Qed.

Lemma idSet_mergeAll resps prev :
  idSet (mergeAll prev resps) = idSet prev ∪ ⋃ (idSet <$> resps).
Proof.
  revert prev. induction resps as [| r resps IH]; intros prev; simpl.
  - set_solver.
  - unfold mergeAll in *. simpl. rewrite IH, idSet_mergeVideos. set_solver.
Qed.

(** When a response has no repeated id, deduplication against the
    accumulator keeps the accumulator free of repeated ids. *)
Lemma mergeVideos_NoDup prev resp :
  NoDup (ids prev) → NoDup (ids resp) → NoDup (ids (mergeVideos prev resp)).
Proof.
  intros Hp Hr. rewrite mergeVideos_unfold. unfold ids at 1.
  rewrite fmap_app. apply NoDup_app. split; [done |]. split.
  - intros x Hx (v & -> & Hv)%list_elem_of_fmap.
    by apply list_elem_of_filter in Hv as [Hv _].
  - clear Hp. induction resp as [| v resp IH]; [constructor |].
    apply NoDup_cons in Hr as [Hv Hr]. rewrite filter_cons.
    destruct (decide _); [| by apply IH].
    rewrite fmap_cons. apply NoDup_cons. split; [| by apply IH].
    intros (w & Hw & Hin)%list_elem_of_fmap.
    apply list_elem_of_filter in Hin as [_ Hin].
    apply Hv. apply list_elem_of_fmap. eauto.
Qed.

Lemma mergeAll_NoDup resps prev :
  NoDup (ids prev) → Forall (λ r, NoDup (ids r)) resps →
  NoDup (ids (mergeAll prev resps)).
Proof.
  revert prev. induction resps as [| r resps IH]; intros prev Hp Hr; [done |].
  apply Forall_cons in Hr as [Hr Hrs].
  unfold mergeAll in *. simpl. apply IH; [| done].
  by apply mergeVideos_NoDup.
Qed.

Lemma filter_known_ids acc resp :
  (∀ v, v ∈ resp → id v ∈ ids acc) →
  filter (λ v, id v ∉ ids acc) resp = [].
Proof.
  intros H. induction resp as [| v resp IH]; [done |].
  rewrite filter_cons. destruct (decide _) as [Hn | _].
  - exfalso. apply Hn, H. left.
  - apply IH. intros w Hw. apply H. by right.
Qed.

Lemma mergeVideos_idempotent prev resp :
  mergeVideos (mergeVideos prev resp) resp = mergeVideos prev resp.
Proof.
  rewrite (mergeVideos_unfold (mergeVideos prev resp) resp).
  rewrite filter_known_ids; [apply app_nil_r |].
  intros v Hv. apply elem_of_ids_mergeVideos. right.
  apply list_elem_of_fmap. eauto.
Qed.

End AccumulatorFacts.

(** C1: the accumulator is meant to hold every id once.  The deduplication
    of [fetchVideos] compares a response only with the items already held,
    so a response that repeats an id within itself puts that id into the
    accumulator twice: merging the response [a, a] into the empty
    accumulator yields [a, a]. *)
Theorem C1_response_repeating_an_id :
  Accumulator.mergeVideos [] [song "a"; song "a"] = [song "a"; song "a"]
  ∧ ¬ NoDup (Accumulator.ids
               (Accumulator.mergeAll [] [[song "a"; song "a"]])).
Proof.
  split; [by vm_compute |].
  intros H. vm_compute in H. apply NoDup_cons in H as [H _].
  apply H. left.
Qed.

(** C9, as stated, fails: the accumulated list depends on the order in
    which two fetches complete. *)
Lemma C9_completion_order_shows :
  Accumulator.mergeAll [] [[song "a"]; [song "b"]]
  ≠ Accumulator.mergeAll [] [[song "b"]; [song "a"]].
Proof. by vm_compute. Qed.

(** C9, amended: merging a response twice yields the same accumulator as
    merging it once, and the set of ids accumulated from two responses (and
    from any sequence of responses) does not depend on the order in which
    they complete. *)
Theorem C9_idempotent_and_same_ids_in_any_order :
  (∀ prev resp,
     Accumulator.mergeVideos (Accumulator.mergeVideos prev resp) resp
     = Accumulator.mergeVideos prev resp)
  ∧ (∀ prev r1 r2,
       idSet (Accumulator.mergeVideos (Accumulator.mergeVideos prev r1) r2)
       = idSet (Accumulator.mergeVideos (Accumulator.mergeVideos prev r2) r1))
  ∧ (∀ prev resps,
       idSet (Accumulator.mergeAll prev resps)
       = idSet prev ∪ ⋃ (idSet <$> resps)).
Proof.
  split; [apply mergeVideos_idempotent |]. split.
  - intros prev r1 r2. rewrite !idSet_mergeVideos. set_solver.
  - intros prev resps. apply idSet_mergeAll.
Qed.

(** * Properties of the page *)

Section PageFacts.
Import Page.

Lemma filter_ne_nil {A} (l : list (TimerId * A)) t :
  (∀ x, x ∈ l → x.1 = t) → filter (λ x, x.1 ≠ t) l = [].
Proof.
  intros H. induction l as [| x l IH]; [done |].
  rewrite filter_cons. destruct (decide _) as [Hn | _].
  - exfalso. apply Hn, H. left.
  - apply IH. intros y Hy. apply H. by right.
Qed.

Lemma filter_ne_id {A} (l : list (TimerId * A)) t :
  (∀ x, x ∈ l → x.1 ≠ t) → filter (λ x, x.1 ≠ t) l = l.
Proof.
  intros H. induction l as [| x l IH]; [done |].
  rewrite filter_cons. destruct (decide _) as [_ | Hn].
  - f_equal. apply IH. intros y Hy. apply H. by right.
  - exfalso. apply Hn, H. left.
Qed.

Ltac unfold_page :=
  unfold step, handleAcceptConsent, handleDeclineConsent,
    handleEmotionDetected, handleCameraStop, handleCameraError,
    handleScanAgain, handleSearch, fireTimeout, fireInterval,
    fetchVideosSettled, renderThrows, cleanup, emotionTimerCallback,
    fetchVideos, countdownTick, startCountdown, scheduleFetch, trackStable,
    elapse, SCAN_DURATION, seq, skip in *.

Ltac open_state s :=
  destruct s as [[sc ca ce sn cd] [cu kw ls] [vs lo ve hl] qy
                 [er cr se sct lf] [ck nx tos ivs rq tr]].

Ltac solve_inv :=
  intros; simpl in *;
  repeat match goal with
  | H : _ ∈ filter _ _ |- _ => apply list_elem_of_filter in H as [? H]
  | H : _ ∈ _ ++ _ |- _ => apply elem_of_app in H as [H | H]
  | H : _ ∈ [_] |- _ => apply list_elem_of_singleton in H; subst
  | H : _ ∈ [] |- _ => by apply elem_of_nil in H
  | H : Some _ = Some _ |- _ => injection H as H; subst
  end;
  simpl in *;
  try done; try lia;
  try naive_solver
        (eauto using Pos.lt_lt_succ, Pos.lt_succ_diag_r with lia).

Lemma Inv_init t0 : Inv (init t0).
Proof. split; simpl; try done; intros x Hx; by apply elem_of_nil in Hx. Qed.

Lemma Inv_step s ev : Inv s → Inv (step s ev).
Proof.
  intros [H1 H2 H3 H4 H5 H6 H7]. open_state s. simpl in *.
  destruct ev; unfold_page; simpl;
    repeat (case_match; simpl in * );
    destruct er, cr; split; solve_inv.
Qed.

Lemma Inv_run evs s : Inv s → Inv (run s evs).
Proof.
  revert s. induction evs as [| ev evs IH]; intros s Hs; [done |].
  simpl. apply IH. by apply Inv_step.
Qed.

Lemma Inv_reachable t0 evs : Inv (run (init t0) evs).
Proof. apply Inv_run, Inv_init. Qed.

Lemma run_snoc s evs ev : run s (evs ++ [ev]) = step (run s evs) ev.
Proof. unfold run. by rewrite foldl_app. Qed.

(** C5: a fetch that ends in an error should leave the videos and set the
    error message, as [fetchVideos] does for every error thrown in its
    [try] block.  A malformed payload under a 2xx status escapes it.  With
    one video accumulated and a request out, the answer [200 {}] has no
    [videos]: the [try] block ends without an error, the updater handed to
    [setVideos] throws when React runs it, and no error message is set.
    The same body under a status that is not 2xx, and a body that is not
    JSON under status 200, are caught and their messages set. *)
Theorem C5_answer_without_videos_sets_no_error :
  let s := run happyScheduled [FetchSettles (JsonBody true None [song "a"])] in
  let s1 := fetchVideos (js "bengali sad songs") s in
  let o := JsonWithoutVideos true None in
  endsInError o = true
  ∧ videos (vid s1) = [song "a"]
  ∧ videoError (vid s1) = None
  ∧ videoError (vid (fetchVideosSettled o s1)) = None
  ∧ videoError (vid (fetchVideosSettled (JsonWithoutVideos false None) s1))
    = Some (js "Failed to fetch videos")
  ∧ videoError
      (vid (fetchVideosSettled
              (BodyNotJson true (js "Unexpected end of JSON input")) s1))
    = Some (js "Unexpected end of JSON input").
Proof. by vm_compute. Qed.

(** An error that [fetchVideos] catches leaves the accumulated videos as
    they were, at the start of the call and when the request ends, and its
    message becomes the error of the page, which the grid shows in place of
    the videos when the message is not empty, as it always is for a status
    that is not 2xx.  The errors caught are the [URIError] of a keyword
    with a lone surrogate, for which no request is sent, and a request that
    ends with the network failing, with a body that cannot be parsed, or
    with a status that is not 2xx. *)
Theorem caught_error_keeps_videos s keyword o message :
  awaitResponse o = inl message →
  let s1 := fetchVideos keyword s in
  let s2 := fetchVideosSettled o s in
  videos (vid s1) = videos (vid s)
  ∧ (isWellFormed keyword = false →
     requests (host s1) = requests (host s)
     ∧ videoError (vid s1) = Some uriErrorMessage
     ∧ View.videoGrid s1 = View.ErrorState uriErrorMessage)
  ∧ videos (vid s2) = videos (vid s)
  ∧ videoError (vid s2) = Some message
  ∧ isLoadingVideos (vid s2) = false
  ∧ (truthy message = true → View.videoGrid s2 = View.ErrorState message)
  ∧ match o with
    | JsonBody _ _ _ | JsonWithoutVideos _ _ => truthy message = true
    | _ => True
    end.
Proof.
  intros Ho s1 s2. subst s1 s2. unfold fetchVideosSettled. rewrite Ho.
  open_state s. unfold fetchVideos, seq, View.videoGrid. simpl.
  split; [by destruct (isWellFormed keyword) |].
  split; [by intros -> |].
  do 3 (split; [done |]).
  split; [by intros -> |].
  destruct o as [m | ok m | ok err dv | ok err]; try done;
    destruct ok; simpl in Ho; try done;
    injection Ho as <-; unfold orElse;
    (destruct err as [e |]; [destruct (truthy e) eqn:E |]); done.
Qed.

(** The scenario of the quota error: one video accumulated, then a 4xx
    response with the body [{error: "quota exceeded"}]. *)
Lemma caught_error_keeps_videos_witness :
  let s := run happyScheduled [FetchSettles (JsonBody true None [song "a"])] in
  let o := JsonWithoutVideos false (Some (js "quota exceeded")) in
  videos (vid (fetchVideosSettled o s)) = [song "a"]
  ∧ videoError (vid (fetchVideosSettled o s)) = Some (js "quota exceeded")
  ∧ View.videoGrid (fetchVideosSettled o s)
    = View.ErrorState (js "quota exceeded").
Proof.
  assert (H : awaitResponse
                (JsonWithoutVideos false (Some (js "quota exceeded")))
              = inl (js "quota exceeded")) by (by vm_compute).
  pose proof (caught_error_keeps_videos
                (run happyScheduled
                   [FetchSettles (JsonBody true None [song "a"])])
                [] _ _ H) as (_ & _ & Hv & He & _ & Hg & _).
  specialize (Hg eq_refl).
  vm_compute in Hv, He, Hg. vm_compute. by repeat split.
Defined.

(** C4, as stated, fails: after two confident happy samples, one confident
    sad sample leaves the happy fetch scheduled and schedules nothing for
    sad; when the delay is over the happy fetch fires. *)
Lemma C4_single_sample_cancels_nothing :
  let s := run happyScheduled [EmotionDetected sad 0.95] in
  timeouts (host happyScheduled) = [(2%positive, (100300, happy))]
  ∧ timeouts (host s) = [(2%positive, (100300, happy))]
  ∧ requests (host (run s [Elapse 300; TimeoutFires 2 0]))
    = [(100300, js "romantic hindi songs 2024")].
Proof. by vm_compute. Qed.

(** C4, amended: while a fetch is scheduled for a stable emotion, a first
    confident sample of another emotion starts a new run and leaves the
    scheduled fetch in place; a second confident sample of that emotion,
    arriving before the trigger has run, cancels it and schedules the fetch
    for the new emotion, 300 ms from then. *)
Theorem C4_second_agreeing_sample_reschedules s t due e1 e2 c1 c2 d :
  timeouts (host s) = [(t, (due, e1))] →
  emotionTimerRef (refs s) = Some t →
  stableEmotionRef (refs s) = Some e1 →
  e2 ≠ e1 →
  (0.9 <= c1)%Q → (0.9 <= c2)%Q →
  3000 ≤ clock (host s) - lastFetchTimeRef (refs s) →
  let s1 := step s (EmotionDetected e2 c1) in
  let s2 := run s1 [Elapse d; EmotionDetected e2 c2] in
  timeouts (host s1) = [(t, (due, e1))]
  ∧ timeouts (host s2)
    = [(nextTimer (host s), (clock (host s) + Z.of_N d + 300, e2))]
  ∧ emotionTimerRef (refs s2) = Some (nextTimer (host s)).
Proof.
  intros Ht Hr He Hne Hc1 Hc2 Hcool.
  assert (H1 : step s (EmotionDetected e2 c1)
               = (setStableEmotionRef (Some e2) >>> setStableCountRef 1) s).
  { simpl. unfold handleEmotionDetected, trackStable.
    destruct (Qlt_le_dec c1 0.9) as [Hlt | _]; [lra |].
    rewrite He.
    destruct (decide (Some e2 = Some e1)) as [Heq | _]; [congruence |].
    done. }
  cbv zeta. rewrite H1. split; [done |].
  simpl. unfold handleEmotionDetected, trackStable.
  destruct (Qlt_le_dec c2 0.9) as [Hlt | _]; [lra |].
  simpl. rewrite decide_True by done. simpl.
  destruct (Z.ltb_spec
              (clock (host s) + Z.of_N d - lastFetchTimeRef (refs s)) 3000)
    as [Hlt | _]; [lia |].
  unfold scheduleFetch, seq. simpl. rewrite Hr. simpl. rewrite Ht.
  rewrite filter_cons. simpl. rewrite decide_False by (intros H; by apply H).
  done.
Qed.

(** The scenario: happy is scheduled, then two confident sad samples 70 ms
    apart. *)
Lemma C4_happy_then_two_sad_witness :
  let s1 := step happyScheduled (EmotionDetected sad 0.95) in
  let s2 := run s1 [Elapse 70; EmotionDetected sad 0.95] in
  timeouts (host s1) = [(2%positive, (100300, happy))]
  ∧ timeouts (host s2) = [(3%positive, (100370, sad))]
  ∧ emotionTimerRef (refs s2) = Some 3%positive.
Proof.
  assert (H1 : timeouts (host happyScheduled)
               = [(2%positive, (100300, happy))]) by (by vm_compute).
  assert (H2 : emotionTimerRef (refs happyScheduled) = Some 2%positive)
    by (by vm_compute).
  assert (H3 : stableEmotionRef (refs happyScheduled) = Some happy)
    by (by vm_compute).
  assert (H4 : sad ≠ happy) by discriminate.
  assert (H5 : (0.9 <= 0.95)%Q) by (by vm_compute).
  assert (H6 : 3000 ≤ clock (host happyScheduled)
                      - lastFetchTimeRef (refs happyScheduled))
    by (by vm_compute).
  pose proof (C4_second_agreeing_sample_reschedules happyScheduled
                2%positive 100300 happy sad 0.95 0.95 70%N
                H1 H2 H3 H4 H5 H5 H6) as H.
  vm_compute in H. vm_compute. exact H.
Defined.

(** C7, as stated, fails: the search acts on the trimmed query.  With the
    query " test query" entered while scanning, the request that leaves is
    for "test query", which is not the text entered; a query of blanks,
    though not empty, issues no request and leaves the scan running; and
    for a query with a lone surrogate the scan ends and no request
    leaves. *)
Lemma C7_query_is_trimmed_first :
  let padded := run happyScheduled [ChangeQuery (js " test query")] in
  let blank := run happyScheduled [ChangeQuery (js "  ")] in
  let lone := run happyScheduled [ChangeQuery [0xD83D%N]] in
  isScanning (cam padded) = true
  ∧ requests (host (step padded SubmitSearch)) = [(100000, js "test query")]
  ∧ js "test query" ≠ searchQuery padded
  ∧ isScanning (cam blank) = true
  ∧ searchQuery blank ≠ []
  ∧ isScanning (cam (step blank SubmitSearch)) = true
  ∧ requests (host (step blank SubmitSearch)) = []
  ∧ isScanning (cam lone) = true
  ∧ isScanning (cam (step lone SubmitSearch)) = false
  ∧ requests (host (step lone SubmitSearch)) = [].
Proof. by vm_compute. Qed.

(** C7, amended.  In every state the page reaches, a manual search while
    scanning whose query is not empty once trimmed acts in the same step,
    whatever the rate limiter and the debounce hold: it shows the trimmed
    query as the keyword, leaves the rate limiter's time and the pending
    debounce trigger as they were, turns scanning and the camera off and
    removes the countdown interval; and it sends one request for the
    trimmed query (the query itself when it has no blanks around it),
    unless that has a lone surrogate: then no request leaves and the error
    of [encodeURIComponent] is set.  In any state, a search whose query is
    empty once trimmed changes nothing. *)
Theorem C7_manual_search_while_scanning :
  (∀ t0 evs,
     let s := run (init t0) evs in
     isScanning (cam s) = true →
     truthy (trim (searchQuery s)) = true →
     let s' := step s SubmitSearch in
     (if isWellFormed (trim (searchQuery s))
      then requests (host s')
           = requests (host s) ++ [(clock (host s), trim (searchQuery s))]
           ∧ isLoadingVideos (vid s') = true
           ∧ videoError (vid s') = None
      else requests (host s') = requests (host s)
           ∧ isLoadingVideos (vid s') = false
           ∧ videoError (vid s') = Some uriErrorMessage)
     ∧ searchKeyword (det s') = Some (trim (searchQuery s))
     ∧ lastFetchTimeRef (refs s') = lastFetchTimeRef (refs s)
     ∧ timeouts (host s') = timeouts (host s)
     ∧ videos (vid s') = videos (vid s)
     ∧ isScanning (cam s') = false
     ∧ cameraActive (cam s') = false
     ∧ intervals (host s') = [])
  ∧ (∀ s, truthy (trim (searchQuery s)) = false → step s SubmitSearch = s).
Proof.
  split.
  - intros t0 evs s Hscan Hq. pose proof (Inv_reachable t0 evs) as HI.
    fold s in HI. clearbody s. destruct HI as [H1 H2 H3 H4 H5 H6 H7].
    open_state s. simpl in *. subst sn ca.
    unfold handleSearch, fetchVideos, seq. simpl. rewrite Hq. simpl.
    destruct (isWellFormed (trim qy)); simpl;
      destruct cr as [t |]; simpl; repeat split;
      try (apply filter_ne_nil; intros x Hx; apply H4 in Hx; congruence);
      try (apply filter_ne_id; intros x Hx Heq; apply H3 in Hx;
           apply (H7 _ Hx); by rewrite Heq);
      (destruct ivs as [| x ivs]; [done |]);
      specialize (H4 x); discriminate H4; left.
  - intros s Hq. simpl. unfold handleSearch. by rewrite Hq.
Qed.

(** The scenario: "test query" submitted while the happy fetch is
    scheduled. *)
Lemma C7_test_query_witness :
  let s :=
    run (init 100000)
      [AcceptConsent; EmotionDetected happy 0.95;
       EmotionDetected happy 0.92; ChangeQuery (js "test query")] in
  let s' := step s SubmitSearch in
  requests (host s') = [(100000, js "test query")]
  ∧ searchKeyword (det s') = Some (js "test query")
  ∧ lastFetchTimeRef (refs s') = 0
  ∧ timeouts (host s') = [(2%positive, (100300, happy))]
  ∧ isScanning (cam s') = false
  ∧ cameraActive (cam s') = false
  ∧ intervals (host s') = [].
Proof.
  pose (evs := [AcceptConsent; EmotionDetected happy 0.95;
                EmotionDetected happy 0.92; ChangeQuery (js "test query")]).
  assert (H1 : isScanning (cam (run (init 100000) evs)) = true)
    by (by vm_compute).
  assert (H2 : truthy (trim (searchQuery (run (init 100000) evs))) = true)
    by (by vm_compute).
  pose proof (proj1 C7_manual_search_while_scanning 100000 evs H1 H2) as H.
  vm_compute in H. destruct H as ((Hr & _) & Hk & Hl & Ht & _ & Hs & Hc & Hi).
  vm_compute. by repeat split.
Defined.

(** C8: leaving the scan should cancel both timers, as the stop handler and
    the unmount cleanup do.  A manual search and the countdown reaching 0
    cancel the countdown interval only: with the happy fetch scheduled, the
    debounce trigger is still in the timer table after either of them, and
    when it runs after the search it replaces the keyword shown and sends a
    request of its own. *)
Theorem C8_debounce_trigger_outlives_the_scan :
  let pending := [(2%positive, (100300, happy))] in
  let searched :=
    run happyScheduled [ChangeQuery (js "test query"); SubmitSearch] in
  let counted :=
    run happyScheduled
      [IntervalFires 1; IntervalFires 1; IntervalFires 1; IntervalFires 1;
       IntervalFires 1] in
  timeouts (host happyScheduled) = pending
  ∧ (isScanning (cam searched) = false
     ∧ intervals (host searched) = []
     ∧ timeouts (host searched) = pending)
  ∧ (isScanning (cam counted) = false
     ∧ scanCountdown (cam counted) = 0
     ∧ intervals (host counted) = []
     ∧ timeouts (host counted) = pending)
  ∧ (let late := run searched [Elapse 300; TimeoutFires 2 0] in
     searchKeyword (det searched) = Some (js "test query")
     ∧ searchKeyword (det late) = Some (js "romantic hindi songs 2024")
     ∧ requests (host late)
       = [(100000, js "test query");
          (100300, js "romantic hindi songs 2024")])
  ∧ timeouts (host (step happyScheduled CameraStop)) = []
  ∧ timeouts (host (step happyScheduled Unmount)) = [].
Proof. by vm_compute. Qed.

(** ** The stabiliser: no fetch before two agreeing samples *)

Lemma agreeingPair_snoc l e :
  agreeingPair (l ++ [e]) = agreeingPair l || bool_decide (last l = Some e).
Proof.
  induction l as [| a l IH]; [done |].
  destruct l as [| b l].
  - simpl. rewrite orb_false_r. apply bool_decide_ext. naive_solver.
  - change (agreeingPair ((a :: b :: l) ++ [e]))
      with (bool_decide (a = b) || agreeingPair ((b :: l) ++ [e])).
    rewrite IH.
    change (agreeingPair (a :: b :: l))
      with (bool_decide (a = b) || agreeingPair (b :: l)).
    change (last (a :: b :: l)) with (last (b :: l)).
    by rewrite orb_assoc.
Qed.

Lemma agreeingPair_app l l' :
  agreeingPair l = true → agreeingPair (l ++ l') = true.
Proof.
  intros H. induction l' as [| e l' IH] using rev_ind.
  - by rewrite app_nil_r.
  - rewrite app_assoc, agreeingPair_snoc, IH. done.
Qed.


Lemma below_threshold c : (c < 0.9)%Q → Qle_bool 0.9 c = false.
Proof.
  intros H. destruct (Qle_bool 0.9 c) eqn:E; [| done].
  apply Qle_bool_iff in E. lra.
Qed.

Lemma above_threshold c : (0.9 <= c)%Q → Qle_bool 0.9 c = true.
Proof. apply Qle_bool_iff. Qed.

(** A sample below the threshold is a no-op. *)
Lemma handleEmotionDetected_low e c s :
  (c < 0.9)%Q → handleEmotionDetected e c s = s.
Proof.
  intros H. unfold handleEmotionDetected.
  destruct (Qlt_le_dec c 0.9) as [_ | H']; [done | lra].
Qed.

(** An accepted sample: the run it leaves, and when it can trigger. *)
Lemma handleEmotionDetected_high e c s :
  (0.9 <= c)%Q →
  let s' := handleEmotionDetected e c s in
  stableEmotionRef (refs s') = Some e
  ∧ stableCountRef (refs s')
    = (if decide (Some e = stableEmotionRef (refs s))
       then stableCountRef (refs s) + 1 else 1)
  ∧ (fetchTriggered s' = true →
     fetchTriggered s = true ∨ 2 ≤ stableCountRef (refs s')).
Proof.
  intros H. open_state s. unfold_page. simpl.
  destruct (Qlt_le_dec c 0.9) as [H' | _]; [lra |].
  destruct tos, tr, er; simpl; repeat (case_match; simpl in * );
    try done; repeat split; try done; try lia; auto.
Qed.






(** ** The rate limiter *)









(** ** The countdown *)

Lemma counting_start s start :
  Inv s → startsScan start = true →
  counting (nextTimer (host s)) 0 (step s start).
Proof.
  intros [H1 H2 H3 H4 H5 H6 H7] Hstart. unfold counting.
  open_state s. simpl in *.
  assert (Hnil : ∀ t, cr = Some t →
                   filter (λ x : TimerId * Z, x.1 ≠ t) ivs = []).
  { intros t ->. apply filter_ne_nil. intros x Hx.
    apply H4 in Hx. congruence. }
  assert (Hnone : cr = None → ivs = []).
  { intros ->. destruct ivs as [| x ivs]; [done |].
    specialize (H4 x). discriminate H4. left. }
  destruct start; try discriminate Hstart; unfold_page; simpl;
    destruct cr as [t |]; simpl;
    rewrite ?(Hnil t eq_refl), ?(Hnone eq_refl); done.
Qed.

(** Background events leave the camera state, the countdown handle and
    the countdown interval alone. *)
Lemma background_frame s ev :
  Inv s → background ev = true →
  cam (step s ev) = cam s
  ∧ countdownTimerRef (refs (step s ev)) = countdownTimerRef (refs s)
  ∧ intervals (host (step s ev)) = intervals (host s).
Proof.
  intros [H1 H2 H3 H4 H5 H6 H7] Hev. open_state s. simpl in *.
  assert (Hid : ∀ t, er = Some t →
                  filter (λ x : TimerId * Z, x.1 ≠ t) ivs = ivs).
  { intros t Ht. apply filter_ne_id. intros x Hx Hxt.
    apply (H7 t Ht). rewrite (H4 x Hx). by rewrite Hxt. }
  destruct ev; try discriminate Hev; simpl in Hev; unfold_page; simpl;
    destruct er as [te |]; simpl;
    repeat (case_match; simpl in * ); rewrite ?(Hid te eq_refl); done.
Qed.

Lemma counting_step n k s ev :
  Inv s → 0 ≤ k → counting n k s →
  background ev || isTick n ev = true →
  counting n (k + (if isTick n ev then 1 else 0)) (step s ev).
Proof.
  intros HI Hk (Hc & Hcd & Hsc & Hca & Hiv) Hev.
  destruct (background ev) eqn:Hbg.
  - destruct (background_frame s ev HI Hbg) as (Ecam & Eref & Eiv).
    assert (Hnt : isTick n ev = false) by (by destruct ev).
    rewrite Hnt, Z.add_0_r. unfold counting.
    by rewrite Ecam, Eref, Eiv.
  - simpl in Hev. destruct ev; try discriminate Hev. simpl in Hev.
    apply bool_decide_eq_true in Hev. subst t.
    simpl. rewrite bool_decide_true by done.
    unfold counting, fireInterval, countdownTick. rewrite Hiv.
    open_state s. simpl in *. subst cr cd sn ca ivs.
    case_bool_decide as Hk5; simpl.
    + rewrite (bool_decide_true (_ ∈ _)) by left.
      rewrite Z.max_r by lia.
      destruct (Z.leb_spec (5 - k) 1) as [Hlast | Hmore]; simpl.
      * rewrite filter_cons. simpl.
        rewrite decide_False by (intros H; by apply H). simpl.
        rewrite !bool_decide_false by lia.
        repeat split. lia.
      * rewrite !bool_decide_true by lia. repeat split. lia.
    + rewrite !bool_decide_false by lia. repeat split; lia.
Qed.

Lemma ticks_nonneg n evs : 0 ≤ ticks n evs.
Proof. induction evs as [| ev evs IH]; simpl; [done |]. case_match; lia. Qed.

Lemma counting_run n evs k s :
  Inv s → 0 ≤ k → counting n k s → scanEvents n evs = true →
  counting n (k + ticks n evs) (run s evs).
Proof.
  revert k s. induction evs as [| ev evs IH]; intros k s HI Hk Hcnt Hevs.
  - simpl. by rewrite Z.add_0_r.
  - simpl in Hevs. apply andb_prop in Hevs as [Hev Hevs].
    simpl. rewrite Z.add_assoc. apply IH; [by apply Inv_step | | | done].
    + case_match; lia.
    + by apply counting_step.
Qed.

(** Once a scan starts (consent accepted, or scan again), whatever
    detections, debounce triggers, ending fetches and keystrokes come in
    between, after [k] runs of the 1000 ms countdown interval the countdown
    shows [max 0 (5 - k)]: it is positive for fewer than 5 ticks, with the
    flags [isScanning] and [cameraActive] set and the interval alive, and
    at the fifth tick it is 0, both flags are off and the interval is gone.
    And in every state the page reaches, scanning goes with a positive
    countdown. *)
Theorem countdown_reaches_zero_after_five_ticks :
  (∀ t0 pre start evs,
     let s := run (init t0) pre in
     let n := nextTimer (host s) in
     startsScan start = true →
     scanEvents n evs = true →
     let s' := run (step s start) evs in
     let k := ticks n evs in
     scanCountdown (cam s') = Z.max 0 (5 - k)
     ∧ isScanning (cam s') = bool_decide (k < 5)
     ∧ cameraActive (cam s') = bool_decide (k < 5)
     ∧ intervals (host s') = (if bool_decide (k < 5) then [(n, 1000)] else []))
  ∧ (∀ t0 evs,
       isScanning (cam (run (init t0) evs)) = true →
       0 < scanCountdown (cam (run (init t0) evs))).
Proof.
  split.
  - intros t0 pre start evs s n Hstart Hevs s' k.
    pose proof (Inv_reachable t0 pre) as HI. fold s in HI.
    pose proof (counting_start s start HI Hstart) as H0. fold n in H0.
    pose proof (counting_run n evs 0 (step s start)
                  (Inv_step _ _ HI) (Z.le_refl 0) H0 Hevs) as H.
    rewrite Z.add_0_l in H. fold k s' in H.
    by destruct H as (_ & ? & ? & ? & ?).
  - intros t0 evs. apply (inv_countdown _ (Inv_reachable t0 evs)).
Qed.

(** Five ticks with detections, a debounced fetch and its response in
    between. *)
Lemma countdown_reaches_zero_after_five_ticks_witness :
  let evs :=
    [EmotionDetected happy 0.95; IntervalFires 1; EmotionDetected happy 0.92;
     IntervalFires 1; Elapse 300; TimeoutFires 2 0; IntervalFires 1;
     IntervalFires 1;
     FetchSettles (JsonBody true None [song "a"]); IntervalFires 1] in
  let s' := run (step (run (init 100000) []) AcceptConsent) evs in
  ticks 1 evs = 5
  ∧ scanCountdown (cam s') = 0
  ∧ isScanning (cam s') = false
  ∧ cameraActive (cam s') = false
  ∧ intervals (host s') = [].
Proof.
  pose (evs :=
    [EmotionDetected happy 0.95; IntervalFires 1; EmotionDetected happy 0.92;
     IntervalFires 1; Elapse 300; TimeoutFires 2 0; IntervalFires 1;
     IntervalFires 1;
     FetchSettles (JsonBody true None [song "a"]); IntervalFires 1]).
  assert (H1 : startsScan AcceptConsent = true) by done.
  assert (H2 : scanEvents (nextTimer (host (run (init 100000) []))) evs
               = true) by (by vm_compute).
  pose proof (proj1 countdown_reaches_zero_after_five_ticks
                100000 [] AcceptConsent evs H1 H2) as H.
  vm_compute in H. vm_compute. split; [done | exact H].
Defined.

(** C6: when the countdown reaches 0 the camera should be deactivated, as
    it is by the stop button of the feed.  With the stream of the camera
    running, five ticks of the countdown end the scan and unmount the feed,
    whose cleanup leaves the stream alone: its tracks are still live, and a
    scan started again opens a second stream beside it.  The stop button
    ends the scan with no live stream left, and it is the only event of the
    page that stops a stream. *)
Theorem C6_countdown_leaves_the_camera_on :
  let tick := Stream.OfPage (IntervalFires 1) in
  let scanning :=
    Stream.run (Stream.init 100000)
      [Stream.OfPage AcceptConsent; Stream.StreamStarts] in
  let counted := scanning ≫= λ w, Stream.run w [tick; tick; tick; tick; tick] in
  let again :=
    counted ≫= λ w, Stream.run w [Stream.OfPage ScanAgain; Stream.StreamStarts] in
  let stopped := scanning ≫= λ w, Stream.run w [Stream.OfPage CameraStop] in
  (Stream.feed <$> scanning = Some (Some (Stream.mkFeed true))
   ∧ Stream.liveStreams <$> scanning = Some 1%nat)
  ∧ (scanCountdown ∘ cam ∘ Stream.page <$> counted = Some 0
     ∧ isScanning ∘ cam ∘ Stream.page <$> counted = Some false
     ∧ cameraActive ∘ cam ∘ Stream.page <$> counted = Some false
     ∧ Stream.feed <$> counted = Some None
     ∧ Stream.liveStreams <$> counted = Some 1%nat)
  ∧ Stream.liveStreams <$> again = Some 2%nat
  ∧ (isScanning ∘ cam ∘ Stream.page <$> stopped = Some false
     ∧ Stream.feed <$> stopped = Some None
     ∧ Stream.liveStreams <$> stopped = Some 0%nat)
  ∧ (∀ w ev w',
       Stream.step w (Stream.OfPage ev) = Some w' → ev ≠ CameraStop →
       Stream.liveStreams w' = Stream.liveStreams w).
Proof.
  do 4 (split; [by vm_compute |]).
  intros w ev w' Hstep Hev. unfold Stream.step in Hstep.
  assert (H : Stream.render (step (Stream.page w) ev) w = w' ∨ ev = CameraStop).
  { destruct ev; try (by right);
      (destruct (Stream.unmounts _); [done | left; congruence]). }
  destruct H as [<- | H]; [| done].
  unfold Stream.render. by destruct (View.feedMounted _), (Stream.feed w).
Qed.

(** ** Double-precision arithmetic *)

Example double_sum_is_rounded :
  (Double.add (Double.literal 0.1) (Double.literal 0.2)
   == 5404319552844596 # 18014398509481984
   ∧ ¬ Double.add (Double.literal 0.1) (Double.literal 0.2)
       == Double.literal 0.3
   ∧ Double.round (inject_Z (2 ^ 53 + 1)) == inject_Z (2 ^ 53)
   ∧ Double.round (inject_Z (2 ^ 53 + 3)) == inject_Z (2 ^ 53 + 4))%Q.
Proof. by vm_compute. Qed.

(** The literal [0.3] is a double just below three tenths. *)
Lemma literal_0_3 :
  (Double.literal 0.3 == 5404319552844595 # 18014398509481984)%Q.
Proof. by vm_compute. Qed.

Lemma nearestEven_close q :
  (q - (1 # 2) <= inject_Z (Double.nearestEven q) <= q + (1 # 2))%Q.
Proof.
  unfold Double.nearestEven.
  pose proof (Qfloor_le q) as Hlo. pose proof (Qlt_floor q) as Hhi.
  rewrite inject_Z_plus in Hhi.
  destruct (Qcompare_spec (q - inject_Z (Qfloor q)) (1 # 2)) as [E | L | G];
    [destruct (Z.even (Qfloor q)) | |];
    rewrite ?inject_Z_plus; change (inject_Z 1) with 1%Q in *; split; lra.
Qed.

Lemma pow2_pos e : (0 < Double.pow2 e)%Q.
Proof. by destruct e. Qed.

Lemma pos_pow2_le p q : (p ≤ q)%positive → (2 ^ p ≤ 2 ^ q)%positive.
Proof.
  intros H. pose proof (Z.pow_le_mono_r 2 (Z.pos p) (Z.pos q)) as L.
  rewrite <- !Pos2Z.inj_pow in L. lia.
Qed.

Lemma pow2_le_1 e : (Double.pow2 e <= 1)%Q → e ≤ 0.
Proof.
  destruct e as [| p | p]; [done | | done].
  intros H. exfalso. unfold Double.pow2, Qle in H. simpl in H.
  assert (2 ≤ 2 ^ p)%positive; [| lia].
  change 2%positive with (2 ^ 1)%positive at 1.
  apply pos_pow2_le. lia.
Qed.

Lemma pow2_small e :
  e ≤ 0 → (Double.pow2 (e - 52) <= 1 # 4503599627370496)%Q.
Proof.
  intros He. destruct (e - 52) as [| p | p] eqn:E; [lia | lia |].
  unfold Double.pow2, Qle. simpl.
  assert (2 ^ 52 ≤ 2 ^ p)%positive as L by (apply pos_pow2_le; lia).
  by vm_compute in L |- *.
Qed.

Lemma binade_le_0 a : (0 < a)%Q → (a <= 1)%Q → Double.binade a ≤ 0.
Proof.
  intros Hpos Hle. unfold Double.binade.
  destruct (Qle_bool _ a) eqn:E.
  - apply Qle_bool_iff in E. apply pow2_le_1. lra.
  - assert (Z.log2 (Qnum a) ≤ Z.log2 (Z.pos (Qden a))); [| lia].
    apply Z.log2_le_mono. unfold Qle in Hle. simpl in Hle. lia.
Qed.

(** Rounding a number between 0 and 1 moves it by at most [2^-53]. *)
Lemma round_close x :
  (0 <= x → x <= 1 →
   x - (1 # 9007199254740992) <= Double.round x
   ∧ Double.round x <= x + (1 # 9007199254740992))%Q.
Proof.
  intros H0 H1. unfold Double.round.
  destruct x as [[| p | p] d]; simpl Qnum; cbv iota.
  - split; by vm_compute.
  - replace (Z.pos p <? 0) with false by done.
    change (Qabs (Z.pos p # d)) with (Z.pos p # d).
    set (x := Z.pos p # d) in *.
    assert (Hpos : (0 < x)%Q) by done.
    pose proof (binade_le_0 x Hpos H1) as Hb.
    set (e := Z.max (Double.binade x) (-1022)).
    assert (He : e ≤ 0) by lia.
    pose proof (pow2_small e He) as Hs. pose proof (pow2_pos (e - 52)) as Hp.
    set (ulp := Double.pow2 (e - 52)) in *.
    assert (Hulp : ¬ (ulp == 0)%Q) by lra.
    pose proof (nearestEven_close (x / ulp)) as [Hlo Hhi].
    set (m := inject_Z (Double.nearestEven (x / ulp))) in *.
    assert (Hx : (x == x / ulp * ulp)%Q) by (field; done).
    set (y := (x / ulp)%Q) in *.
    split; nra.
  - by exfalso.
Qed.

Lemma add_close a b :
  (0 <= a → 0 <= b → a + b <= 1 →
   a + b - (1 # 9007199254740992) <= Double.add a b
   ∧ Double.add a b <= a + b + (1 # 9007199254740992))%Q.
Proof. intros. apply round_close; lra. Qed.

(** ** The mapping of expressions to emotions *)

Lemma scan_relevantExpressions x :
  foldl scanEntry (neutral, 0%Q) (relevantExpressions x)
  = scanEntry (scanEntry (scanEntry (neutral, 0%Q) (happy, x_happy x))
                 (sad, x_sad x))
      (neutral, Double.add (x_neutral x) (x_surprised x)).
Proof. reflexivity. Qed.

(** At the literal [0.3] itself the mapping does not fall back to
    neutral. *)
Example mapExpressionToEmotion_at_threshold :
  mapExpressionToEmotion
    (mkExpressions (Double.literal 0.3) 0.1 0.1 0.1 0.1 0.1 0.1) = happy
  ∧ mapExpressionToEmotion
      (mkExpressions 0.1 0.1 (Double.literal 0.1) (Double.literal 0.2)
         0.1 0.1 0.1) = neutral.
Proof. by vm_compute. Qed.

(** C10: the mapping never answers [surprised]; the surprised score is
    added into the neutral bucket, by an addition of doubles, which for
    scores that are probabilities is the sum up to [2^-53]; when the
    largest of the three buckets is below the literal [0.3] the answer is
    [neutral], and otherwise the answer is a label whose bucket is the
    largest; and the keyword lists of [surprised] and of [neutral] in the
    table are equal. *)
Theorem C10_surprised_counts_as_neutral :
  (∀ x,
     mapExpressionToEmotion x ≠ surprised
     ∧ combinedScore x neutral = Double.add (x_neutral x) (x_surprised x)
     ∧ (0 <= x_neutral x → 0 <= x_surprised x →
        x_neutral x + x_surprised x <= 1 →
        x_neutral x + x_surprised x - (1 # 9007199254740992)
          <= combinedScore x neutral
        ∧ combinedScore x neutral
          <= x_neutral x + x_surprised x + (1 # 9007199254740992))
     ∧ (maxCombined x < Double.literal 0.3 ∧ mapExpressionToEmotion x = neutral
        ∨ Double.literal 0.3 <= maxCombined x
          ∧ combinedScore x (mapExpressionToEmotion x) == maxCombined x))%Q
  ∧ keywords (emotionMapping surprised) = keywords (emotionMapping neutral).
Proof.
  split; [| reflexivity].
  intros [h s n p a f d].
  unfold mapExpressionToEmotion, maxCombined, combinedScore.
  rewrite scan_relevantExpressions. unfold scanEntry. simpl.
  generalize (add_close n p). generalize (Double.add n p). intros b Hb.
  generalize literal_0_3. generalize (Double.literal 0.3). intros c Hc.
  split; [| split; [reflexivity | split; [exact Hb |]]].
  - repeat (destruct (Qlt_le_dec _ _); simpl); discriminate.
  - clear Hb.
    destruct (Q.max_spec s b) as [[H1 E1] | [H1 E1]];
      destruct (Q.max_spec h (Qmax s b)) as [[H2 E2] | [H2 E2]];
      rewrite E2; rewrite E1 in *;
      repeat (destruct (Qlt_le_dec _ _); simpl in * );
      first [ left; split; [lra | reflexivity]
            | right; split; lra
            | exfalso; lra ].
Qed.

(** ** Further properties *)

Lemma mergeAll_prefix resps prev :
  prev `prefix_of` Accumulator.mergeAll prev resps.
Proof.
  revert prev. induction resps as [| r resps IH]; intros prev; [done |].
  unfold Accumulator.mergeAll in *. simpl.
  etrans; [apply mergeVideos_prefix | apply IH].
Qed.

(** When no response repeats an id within itself, an accumulator without
    repeated ids stays without them through any sequence of completed
    fetches; what it held stays in front, in order; and its ids are the
    union of the ids it held and of the ids of the responses. *)
Theorem accumulator_of_distinct_responses prev resps :
  NoDup (Accumulator.ids prev) →
  Forall (λ r, NoDup (Accumulator.ids r)) resps →
  NoDup (Accumulator.ids (Accumulator.mergeAll prev resps))
  ∧ prev `prefix_of` Accumulator.mergeAll prev resps
  ∧ idSet (Accumulator.mergeAll prev resps)
    = idSet prev ∪ ⋃ (idSet <$> resps).
Proof.
  intros Hp Hr. split; [by apply mergeAll_NoDup |].
  split; [apply mergeAll_prefix | apply idSet_mergeAll].
Qed.

(** Two overlapping responses merged into an accumulator that holds one
    of their ids. *)
Lemma accumulator_of_distinct_responses_witness :
  Accumulator.mergeAll [song "a"]
    [[song "b"; song "a"]; [song "c"; song "b"]]
  = [song "a"; song "b"; song "c"]
  ∧ NoDup (Accumulator.ids
             (Accumulator.mergeAll [song "a"]
                [[song "b"; song "a"]; [song "c"; song "b"]])).
Proof.
  assert (H1 : NoDup (Accumulator.ids [song "a"])).
  { apply (bool_decide_unpack _). by vm_compute. }
  assert (H2 : Forall (λ r, NoDup (Accumulator.ids r))
                 [[song "b"; song "a"]; [song "c"; song "b"]]).
  { repeat constructor; apply (bool_decide_unpack _); by vm_compute. }
  split; [by vm_compute |].
  exact (proj1 (accumulator_of_distinct_responses _ _ H1 H2)).
Defined.

(** Scan again empties the accumulator, resets the stabiliser's run and
    the rate limiter, and starts a scan with the full countdown. *)
Theorem scan_again_starts_afresh s :
  let s' := handleScanAgain s in
  videos (vid s') = []
  ∧ stableEmotionRef (refs s') = None
  ∧ stableCountRef (refs s') = 0
  ∧ lastFetchTimeRef (refs s') = 0
  ∧ scanCountdown (cam s') = 5
  ∧ isScanning (cam s') = true
  ∧ cameraActive (cam s') = true
  ∧ cameraError (cam s') = None.
Proof.
  open_state s. unfold_page. simpl. by destruct cr.
Qed.

(** An accepted sample extends the run when its label is the one the run
    holds and starts a run of length 1 otherwise. *)
Theorem accepted_sample_updates_run e c s :
  (0.9 <= c)%Q →
  let s' := handleEmotionDetected e c s in
  stableEmotionRef (refs s') = Some e
  ∧ stableCountRef (refs s')
    = (if decide (Some e = stableEmotionRef (refs s))
       then stableCountRef (refs s) + 1 else 1).
Proof.
  intros Hc. destruct (handleEmotionDetected_high e c s Hc) as (H1 & H2 & _).
  by split.
Qed.

(** A third confident happy sample makes the run 3 long. *)
Lemma accepted_sample_updates_run_witness :
  let s' := handleEmotionDetected happy 0.95 happyScheduled in
  stableEmotionRef (refs s') = Some happy ∧ stableCountRef (refs s') = 3.
Proof.
  assert (H1 : (0.9 <= 0.95)%Q) by (by vm_compute).
  pose proof (accepted_sample_updates_run happy 0.95 happyScheduled H1) as H.
  vm_compute in H. vm_compute. exact H.
Defined.

(** ** The keyword table *)

(** For every value [Math.random()] can return, [getRandomKeyword] returns
    one of the keywords of the emotion: the index never leaves the list. *)
Theorem getRandomKeyword_in_table emotion u :
  (0 <= u)%Q → (u < 1)%Q →
  ∃ keyword,
    getRandomKeyword emotion u = Some keyword
    ∧ keyword ∈ keywords (emotionMapping emotion).
Proof.
  intros H0 H1. unfold getRandomKeyword.
  assert (Hlen : length (keywords (emotionMapping emotion)) = 9%nat)
    by (by destruct emotion).
  rewrite Hlen. change (inject_Z (Z.of_nat 9)) with 9%Q.
  assert (Hlo : 0 ≤ Qfloor (u * 9)).
  { change 0 with (Qfloor 0). apply Qfloor_resp_le. lra. }
  assert (Hhi : Qfloor (u * 9) < 9).
  { rewrite Zlt_Qlt. pose proof (Qfloor_le (u * 9)) as Hle.
    change (inject_Z 9) with 9%Q. lra. }
  destruct (Qfloor (u * 9)) as [| p | p] eqn:E; [| | lia].
  - destruct (lookup_lt_is_Some_2 (keywords (emotionMapping emotion))
                (Z.to_nat 0)) as [k Hk]; [rewrite Hlen; lia |].
    exists k. split; [done |]. by eapply list_elem_of_lookup_2.
  - destruct (lookup_lt_is_Some_2 (keywords (emotionMapping emotion))
                (Z.to_nat (Z.pos p))) as [k Hk]; [rewrite Hlen; lia |].
    exists k. split; [done |]. by eapply list_elem_of_lookup_2.
Qed.

(** The largest value below 1 picks the last keyword. *)
Lemma getRandomKeyword_in_table_witness :
  ∃ keyword,
    getRandomKeyword sad (999 # 1000) = Some keyword
    ∧ keyword ∈ keywords (emotionMapping sad).
Proof.
  assert (H0 : (0 <= 999 # 1000)%Q) by (by vm_compute).
  assert (H1 : (999 # 1000 < 1)%Q) by (by vm_compute).
  exact (getRandomKeyword_in_table sad (999 # 1000) H0 H1).
Defined.

(** ** The search route *)

Lemma queryMissing_spec query :
  Route.queryMissing query = true
  ↔ query = None ∨ ∃ q, query = Some q ∧ trim q = [].
Proof.
  destruct query as [q |]; simpl; [| naive_solver].
  split.
  - intros H. right. exists q. split; [done |].
    apply orb_prop in H as [H | H].
    + destruct q; [done | discriminate H].
    + apply Z.eqb_eq in H. destruct (trim q); [done | simpl in H; lia].
  - intros [H | (q' & [= <-] & H)]; [done |].
    rewrite H. apply orb_true_r.
Qed.

Lemma respond_cases st b :
  (Route.respond st b = Route.mkResponse st b
   ∧ 200 ≤ st ≤ 599 ∧ st ≠ 204 ∧ st ≠ 205 ∧ st ≠ 304)
  ∨ Route.respond st b = Route.caught.
Proof.
  unfold Route.respond.
  destruct (Z.leb_spec 200 st), (Z.leb_spec st 599); simpl; auto.
  case_bool_decide as Hn; simpl; auto.
  left. split; [done |]. split; [lia |]. set_solver.
Qed.

Lemma respond_200 b : Route.respond 200 b = Route.mkResponse 200 b.
Proof. by vm_compute. Qed.

Lemma isOk_spec st : Route.isOk st = true ↔ 200 ≤ st ≤ 299.
Proof. unfold Route.isOk. rewrite andb_true_iff, !Z.leb_le. done. Qed.

(** The route calls YouTube only for a query that is not blank and with a
    key that is configured, and then passes the query on as it came
    (untrimmed) together with the key; a missing or blank query is answered
    400 whatever the key, and a missing key 500. *)
Theorem route_checks_query_then_key query apiKey :
  match Route.prepare query apiKey with
  | inr params =>
      ∃ q k, query = Some q ∧ apiKey = Some k ∧ trim q ≠ [] ∧ k ≠ []
             ∧ params = Route.searchParams q k
  | inl answer =>
      (Route.status answer = 400
       ∧ Route.body answer = Route.ErrorBody (js "Search query is required")
       ∧ (query = None ∨ ∃ q, query = Some q ∧ trim q = []))
      ∨ (Route.status answer = 500
         ∧ Route.body answer
           = Route.ErrorBody (js "YouTube API is not configured")
         ∧ (apiKey = None ∨ apiKey = Some [])
         ∧ ∃ q, query = Some q ∧ trim q ≠ [])
  end.
Proof.
  unfold Route.prepare.
  destruct (Route.queryMissing query) eqn:Hq.
  - left. repeat split. by apply queryMissing_spec.
  - assert (Hq' : ∃ q, query = Some q ∧ trim q ≠ []).
    { destruct query as [q |]; [| done]. exists q. split; [done |].
      intros Ht. rewrite (proj2 (queryMissing_spec (Some q))) in Hq; [done |].
      right. eauto. }
    destruct (Route.keyMissing apiKey) eqn:Hk.
    + right. repeat split; [| done].
      destruct apiKey as [[| c k] |]; auto. discriminate Hk.
    + destruct Hq' as (q & -> & Hq'). destruct apiKey as [[| c k] |];
        try discriminate Hk.
      exists q, (c :: k). by repeat split.
Qed.

Lemma GET_cases query apiKey upstream :
  let r := Route.GET query apiKey upstream in
  (Route.status r = 200 ∧ ∃ vs, Route.body r = Route.VideosBody vs)
  ∨ (300 ≤ Route.status r ≤ 599
     ∧ ∃ e, Route.body r = Route.ErrorBody e ∧ e ∈ Route.errorMessages).
Proof.
  assert (Hc : 300 ≤ Route.status Route.caught ≤ 599
               ∧ ∃ e, Route.body Route.caught = Route.ErrorBody e
                      ∧ e ∈ Route.errorMessages).
  { split; [done |]. eexists. split; [done |].
    unfold Route.errorMessages. set_solver. }
  unfold Route.GET, Route.prepare.
  destruct (Route.queryMissing query).
  { right. split; [done |]. eexists. split; [done |]. left. }
  destruct (Route.keyMissing apiKey).
  { right. split; [done |]. eexists. split; [done |]. right. left. }
  destruct upstream as [| st body]; simpl; [by right |].
  destruct (Route.isOk st) eqn:Hok; simpl.
  - destruct body as [| [items |] msg]; try by right.
    rewrite respond_200. left. eauto.
  - destruct body as [| items msg]; [by right |].
    destruct (respond_cases st
                (Route.ErrorBody (js "Failed to fetch videos from YouTube")))
      as [(-> & Hr & _) | ->]; [| by right].
    right. simpl. split.
    + assert (¬ 200 ≤ st ≤ 299) by (rewrite <- isOk_spec; congruence). lia.
    + eexists. split; [done |]. unfold Route.errorMessages. set_solver.
Qed.

(** Every answer of the route is either status 200 with a list of videos,
    or a status from 300 to 599 with one of the route's four fixed
    messages: what the provider says about an error is not passed on. *)
Theorem route_answers_videos_or_fixed_error query apiKey upstream :
  let r := Route.GET query apiKey upstream in
  (Route.status r = 200 ∧ ∃ vs, Route.body r = Route.VideosBody vs)
  ∨ (300 ≤ Route.status r ≤ 599
     ∧ ∃ e, Route.body r = Route.ErrorBody e ∧ e ∈ Route.errorMessages).
Proof. apply GET_cases. Qed.

(** When the route answers with videos, they are the items of kind
    [youtube#video] of the upstream answer, in their order, each with the
    id, title and channel of its item and the high thumbnail, or the medium
    one when the high one is empty. *)
Theorem route_videos_are_the_video_items query apiKey upstream vs :
  Route.body (Route.GET query apiKey upstream) = Route.VideosBody vs →
  ∃ st items msg,
    upstream = Route.Answers st (Route.Json (Some items) msg)
    ∧ 200 ≤ st ≤ 299
    ∧ Accumulator.ids vs
      = Route.id_videoId
          <$> filter (λ i, Route.id_kind i = js "youtube#video") items
    ∧ (length vs ≤ length items)%nat
    ∧ Forall (λ v, ∃ i, i ∈ items ∧ Route.id_kind i = js "youtube#video"
                        ∧ v = Route.toVideo i) vs.
Proof.
  unfold Route.GET, Route.prepare.
  destruct (Route.queryMissing query); [done |].
  destruct (Route.keyMissing apiKey); [done |].
  destruct upstream as [| st body]; simpl; [done |].
  destruct (Route.isOk st) eqn:Hok; simpl.
  - destruct body as [| [items |] msg]; try done.
    rewrite respond_200. simpl. intros [= <-].
    exists st, items, msg. apply isOk_spec in Hok.
    repeat split; try lia.
    + unfold Accumulator.ids, Route.sanitize. by rewrite <- list_fmap_compose.
    + unfold Route.sanitize. rewrite length_fmap. apply length_filter.
    + apply Forall_forall. intros v Hv. unfold Route.sanitize in Hv.
      apply list_elem_of_fmap in Hv as (i & -> & Hi).
      apply list_elem_of_filter in Hi as [Hk Hi]. eauto.
  - destruct body as [| items msg]; [done |].
    by destruct (respond_cases st
                   (Route.ErrorBody (js "Failed to fetch videos from YouTube")))
      as [(-> & _) | ->].
Qed.

(** An upstream answer with a video, a channel and a video whose high
    thumbnail is empty. *)
Lemma route_videos_are_the_video_items_witness :
  let items :=
    [ Route.mkItem (js "youtube#video") (js "a") (js "A") (js "ch")
        (js "m.jpg") (js "h.jpg");
      Route.mkItem (js "youtube#channel") (js "c") (js "C") (js "ch")
        (js "m.jpg") (js "h.jpg");
      Route.mkItem (js "youtube#video") (js "b") (js "B") (js "ch")
        (js "m.jpg") [] ] in
  Route.GET (Some (js "sad songs")) (Some (js "key"))
    (Route.Answers 200 (Route.Json (Some items) None))
  = Route.mkResponse 200
      (Route.VideosBody
         [ mkVideo (js "a") (js "A") (js "h.jpg") (Some (js "ch"));
           mkVideo (js "b") (js "B") (js "m.jpg") (Some (js "ch")) ])
  ∧ ∃ st items' msg,
      Route.Answers 200 (Route.Json (Some items) None)
      = Route.Answers st (Route.Json (Some items') msg)
      ∧ 200 ≤ st ≤ 299.
Proof.
  cbv zeta. split; [by vm_compute |].
  destruct (route_videos_are_the_video_items
              (Some (js "sad songs")) (Some (js "key"))
              (Route.Answers 200
                 (Route.Json
                    (Some
                       [ Route.mkItem (js "youtube#video") (js "a") (js "A")
                           (js "ch") (js "m.jpg") (js "h.jpg");
                         Route.mkItem (js "youtube#channel") (js "c")
                           (js "C") (js "ch") (js "m.jpg") (js "h.jpg");
                         Route.mkItem (js "youtube#video") (js "b") (js "B")
                           (js "ch") (js "m.jpg") [] ]) None))
              [ mkVideo (js "a") (js "A") (js "h.jpg") (Some (js "ch"));
                mkVideo (js "b") (js "B") (js "m.jpg") (Some (js "ch")) ]
              ltac:(by vm_compute))
    as (st & items' & msg & H1 & H2 & _).
  exists st, items', msg. by split.
Defined.

(** *** The route and the page together *)

Lemma errorMessages_truthy e : e ∈ Route.errorMessages → truthy e = true.
Proof.
  unfold Route.errorMessages. intros He.
  repeat (apply elem_of_cons in He as [-> | He]; [done |]).
  by apply elem_of_nil in He.
Qed.

Lemma settle_route_answer s query apiKey upstream :
  let r := Route.GET query apiKey upstream in
  ∃ o, Route.clientSees r = Some o
       ∧ match Route.body r with
         | Route.VideosBody vs =>
             videos (vid (fetchVideosSettled o s))
             = Accumulator.mergeVideos (videos (vid s)) vs
             ∧ videoError (vid (fetchVideosSettled o s)) = videoError (vid s)
             ∧ hasLoadedVideos (vid (fetchVideosSettled o s)) = true
         | Route.ErrorBody e =>
             videos (vid (fetchVideosSettled o s)) = videos (vid s)
             ∧ videoError (vid (fetchVideosSettled o s)) = Some e
             ∧ e ∈ Route.errorMessages
         end.
Proof.
  intros r.
  destruct (GET_cases query apiKey upstream)
    as [(Hst & vs & Hb) | (Hst & e & Hb & He)]; fold r in Hst, Hb.
  - unfold Route.clientSees. rewrite Hb, Hst. eexists. split; [done |].
    done.
  - unfold Route.clientSees. rewrite Hb.
    assert (Hok : Route.isOk (Route.status r) = false).
    { destruct (Route.isOk (Route.status r)) eqn:E; [| done].
      apply isOk_spec in E. lia. }
    rewrite Hok. eexists. split; [done |].
    unfold fetchVideosSettled. simpl.
    unfold orElse. by rewrite (errorMessages_truthy e He).
Qed.

(** Whatever the route answers, the page can read it, and it does one of
    two things: for an answer with videos it merges them into the
    accumulator and leaves the error as it is; for any other answer it
    keeps the accumulator and shows the route's own message, one of the
    four fixed ones, never its fallback text. *)
Theorem page_reads_every_route_answer s query apiKey upstream :
  let r := Route.GET query apiKey upstream in
  ∃ o, Route.clientSees r = Some o
       ∧ match Route.body r with
         | Route.VideosBody vs =>
             videos (vid (fetchVideosSettled o s))
             = Accumulator.mergeVideos (videos (vid s)) vs
             ∧ videoError (vid (fetchVideosSettled o s)) = videoError (vid s)
             ∧ hasLoadedVideos (vid (fetchVideosSettled o s)) = true
         | Route.ErrorBody e =>
             videos (vid (fetchVideosSettled o s)) = videos (vid s)
             ∧ videoError (vid (fetchVideosSettled o s)) = Some e
             ∧ e ∈ Route.errorMessages
         end.
Proof. apply settle_route_answer. Qed.

(** *** The page never asks the route for a blank query *)

Lemma trimStart_suffix s : trimStart s `suffix_of` s.
Proof.
  induction s as [| c s IH]; [done |]. simpl.
  destruct (isWhiteSpace c); [by apply suffix_cons_r | done].
Qed.

Lemma trimStart_head s c :
  head (trimStart s) = Some c → isWhiteSpace c = false.
Proof.
  induction s as [| c' s IH]; [done |]. simpl.
  destruct (isWhiteSpace c') eqn:E; [done |]. simpl. by intros [= <-].
Qed.

Lemma trimStart_fixed s :
  (∀ c, head s = Some c → isWhiteSpace c = false) → trimStart s = s.
Proof.
  destruct s as [| c s]; [done |]. intros H. simpl.
  by rewrite (H c eq_refl).
Qed.

Lemma trimStart_idempotent s : trimStart (trimStart s) = trimStart s.
Proof. apply trimStart_fixed, trimStart_head. Qed.

Lemma head_rev {A} (l : list A) : head (rev l) = last l.
Proof.
  induction l as [| x l IH] using rev_ind; [done |].
  by rewrite rev_unit, last_snoc.
Qed.

Lemma last_suffix {A} (b a : list A) :
  b `suffix_of` a → b ≠ [] → last b = last a.
Proof.
  intros [k ->] Hb. destruct b as [| x b] using rev_ind; [done |].
  by rewrite app_assoc, !last_snoc.
Qed.

Lemma trim_idempotent s : trim (trim s) = trim s.
Proof.
  unfold trim, trimEnd.
  set (a := trimStart s). set (b := trimStart (rev a)).
  destruct (decide (b = [])) as [Hb | Hb]; [by rewrite Hb |].
  assert (Hfix : trimStart (rev b) = rev b).
  { apply trimStart_fixed. intros c. rewrite head_rev.
    rewrite (last_suffix b (rev a)); [| apply trimStart_suffix | done].
    rewrite <- head_rev, rev_involutive. apply trimStart_head. }
  rewrite Hfix, rev_involutive. unfold b. by rewrite trimStart_idempotent.
Qed.

Lemma trimmed_query_passes q :
  truthy (trim q) = true → Route.queryMissing (Some (trim q)) = false.
Proof.
  intros H. simpl. rewrite H, trim_idempotent. simpl.
  destruct (trim q); [done |]. simpl. lia.
Qed.

Lemma getRandomKeyword_Some e u k :
  getRandomKeyword e u = Some k → k ∈ keywords (emotionMapping e).
Proof.
  unfold getRandomKeyword.
  destruct (Qfloor _); try done; apply list_elem_of_lookup_2.
Qed.

Lemma table_keyword_passes e k :
  k ∈ keywords (emotionMapping e) → Route.queryMissing (Some k) = false.
Proof.
  intros Hk.
  assert (H : forallb (λ k, negb (Route.queryMissing (Some k)))
                (keywords (emotionMapping e)) = true)
    by (destruct e; by vm_compute).
  rewrite forallb_forall in H. apply list_elem_of_In in Hk.
  specialize (H k Hk). by destruct (Route.queryMissing (Some k)).
Qed.

Lemma requestsPass_step s ev :
  requestsPass s → requestsPass (step s ev).
Proof.
  unfold requestsPass. intros H. open_state s. simpl in *.
  destruct ev; unfold_page; simpl.
  8: { (* manual search *)
    destruct (truthy (trim qy)) eqn:Hq; [| done]. simpl.
    destruct (isWellFormed (trim qy)), ca, cr; simpl; try done;
      apply Forall_app; (split; [done |]);
      apply Forall_singleton; by apply trimmed_query_passes. }
  9: { (* the debounce trigger runs *)
    destruct (list_find _ tos) as [[i [t' [due e]]] |]; [| done].
    destruct (_ && _); [| done].
    destruct (getRandomKeyword e u) as [k |] eqn:Hk; simpl; [| done].
    destruct (isWellFormed k); simpl; [| done].
    apply Forall_app. split; [done |]. apply Forall_singleton.
    apply (table_keyword_passes e). by apply (getRandomKeyword_Some e u). }
  all: destruct er, cr; repeat (case_match; simpl in * ); done.
Qed.

(** Every request the page sends, from a manual search or from a debounce
    trigger, is for a query the route's first check accepts: it is not
    empty once trimmed. *)
Theorem page_never_asks_for_a_blank_query t0 evs :
  Forall (λ x, Route.queryMissing (Some x.2) = false)
    (requests (host (run (init t0) evs))).
Proof.
  assert (H : ∀ evs s, requestsPass s → requestsPass (run s evs)).
  { clear evs. induction evs as [| ev evs IH]; intros s Hs; [done |].
    simpl. apply IH. by apply requestsPass_step. }
  apply H. by apply Forall_nil.
Qed.

(** ** The camera feed and the page together *)

(** A frame in which the surprised score exceeds 0.1 changes nothing on the
    page: the mapping counts surprised into neutral, but the confidence the
    feed reports is the score of the label alone, and no label can then
    reach 0.90. *)
Theorem surprised_frame_is_ignored x s :
  isDistribution x → (0.1 < x_surprised x)%Q → Feed.onFrame x s = s.
Proof.
  intros (Hh & Hs & Hn & Hp & Ha & Hf & Hd & Hsum) Hsur.
  unfold Feed.onFrame, Feed.detection. simpl.
  apply handleEmotionDetected_low.
  destruct x as [h sd n p a f d]. simpl in *.
  unfold mapExpressionToEmotion. rewrite scan_relevantExpressions.
  unfold scanEntry. simpl.
  generalize (Double.add n p) (Double.literal 0.3). intros b c.
  repeat (destruct (Qlt_le_dec _ _); simpl in * ); lra.
Qed.

(** Half neutral, nearly half surprised: the neutral bucket wins with 0.95,
    the page sees neutral at 0.5 and ignores it. *)
Lemma surprised_frame_is_ignored_witness :
  let x := mkExpressions 0.02 0.03 0.5 0.45 0 0 0 in
  Feed.detection x = (neutral, 0.5%Q)
  ∧ Feed.onFrame x happyScheduled = happyScheduled.
Proof.
  assert (H1 : isDistribution (mkExpressions 0.02 0.03 0.5 0.45 0 0 0))
    by (by vm_compute).
  assert (H2 : (0.1 < x_surprised (mkExpressions 0.02 0.03 0.5 0.45 0 0 0))%Q)
    by (by vm_compute).
  split; [by vm_compute |].
  exact (surprised_frame_is_ignored _ happyScheduled H1 H2).
Defined.

(** A frame in which happy, sad or neutral scores at least 0.90 is reported
    under that label with that score, so the page accepts it. *)
Theorem strong_expression_is_reported x e :
  isDistribution x → e ≠ surprised → (0.9 <= Feed.scoreOf x e)%Q →
  Feed.detection x = (e, Feed.scoreOf x e).
Proof.
  intros (Hh & Hs & Hn & Hp & Ha & Hf & Hd & Hsum) He Hc.
  unfold Feed.detection. simpl.
  assert (Hm : mapExpressionToEmotion x = e); [| by rewrite Hm].
  destruct x as [h sd n p a f d]. simpl in *.
  unfold mapExpressionToEmotion. rewrite scan_relevantExpressions.
  unfold scanEntry. simpl.
  pose proof (add_close n p Hn Hp ltac:(lra)) as [Hlo Hhi].
  pose proof literal_0_3 as Hlit.
  revert Hlo Hhi Hlit.
  generalize (Double.add n p) (Double.literal 0.3). intros b c Hlo Hhi Hlit.
  destruct e; simpl in *; try done;
    repeat (destruct (Qlt_le_dec _ _); simpl in * ); try done; lra.
Qed.

Lemma strong_expression_is_reported_witness :
  Feed.detection (mkExpressions 0.01 0.93 0.02 0.01 0.01 0.01 0.01)
  = (sad, Feed.scoreOf (mkExpressions 0.01 0.93 0.02 0.01 0.01 0.01 0.01) sad).
Proof.
  assert (H1 : isDistribution
                 (mkExpressions 0.01 0.93 0.02 0.01 0.01 0.01 0.01))
    by (by vm_compute).
  assert (H2 : sad ≠ surprised) by discriminate.
  assert (H3 : (0.9 <= Feed.scoreOf
                   (mkExpressions 0.01 0.93 0.02 0.01 0.01 0.01 0.01) sad)%Q)
    by (by vm_compute).
  exact (strong_expression_is_reported _ sad H1 H2 H3).
Defined.

(** ** Timers, the accumulator and the run, over whole sessions *)

Lemma Inv_timeouts_cleared s t :
  Inv s → emotionTimerRef (refs s) = Some t →
  filter (λ x : TimerId * (Z * Emotion), x.1 ≠ t) (timeouts (host s)) = [].
Proof.
  intros HI Ht. apply filter_ne_nil. intros x Hx.
  apply (inv_timeouts _ HI) in Hx. congruence.
Qed.

Lemma Inv_timeouts_none s :
  Inv s → emotionTimerRef (refs s) = None → timeouts (host s) = [].
Proof.
  intros HI Ht. destruct (timeouts (host s)) as [| x l] eqn:E; [done |].
  assert (Hx : x ∈ timeouts (host s)) by (rewrite E; left).
  apply (inv_timeouts _ HI) in Hx. congruence.
Qed.

Lemma Inv_intervals_cleared s t :
  Inv s → countdownTimerRef (refs s) = Some t →
  filter (λ x : TimerId * Z, x.1 ≠ t) (intervals (host s)) = [].
Proof.
  intros HI Ht. apply filter_ne_nil. intros x Hx.
  apply (inv_intervals _ HI) in Hx. congruence.
Qed.

Lemma Inv_intervals_none s :
  Inv s → countdownTimerRef (refs s) = None → intervals (host s) = [].
Proof.
  intros HI Ht. destruct (intervals (host s)) as [| x l] eqn:E; [done |].
  assert (Hx : x ∈ intervals (host s)) by (rewrite E; left).
  apply (inv_intervals _ HI) in Hx. congruence.
Qed.

Lemma atMostOne_step s ev :
  Inv s →
  (length (timeouts (host s)) ≤ 1)%nat
  ∧ (length (intervals (host s)) ≤ 1)%nat →
  (length (timeouts (host (step s ev))) ≤ 1)%nat
  ∧ (length (intervals (host (step s ev))) ≤ 1)%nat.
Proof.
  intros HI [Ht Hi].
  pose proof (Inv_timeouts_cleared s) as Tc.
  pose proof (Inv_timeouts_none s) as Tn.
  pose proof (Inv_intervals_cleared s) as Ic.
  pose proof (Inv_intervals_none s) as In.
  specialize (Tn HI). specialize (In HI).
  open_state s. simpl in *.
  assert (Hft : ∀ t, (length (filter (λ x : TimerId * (Z * Emotion),
                                        x.1 ≠ t) tos) ≤ 1)%nat).
  { intros t. etrans; [apply length_filter | done]. }
  assert (Hfi : ∀ t, (length (filter (λ x : TimerId * Z, x.1 ≠ t) ivs)
                      ≤ 1)%nat).
  { intros t. etrans; [apply length_filter | done]. }
  destruct ev; unfold_page; simpl;
    destruct er as [te |], cr as [tc |]; simpl;
    repeat (case_match; simpl in * );
    rewrite ?length_app; simpl;
    rewrite ?(Tc te HI eq_refl), ?(Ic tc HI eq_refl), ?(Tn eq_refl),
      ?(In eq_refl); simpl;
    try (split;
         first [ done | lia | apply Hft | apply Hfi
               | do 2 (etrans; [apply length_filter |]); done ]).
Qed.

(** In every state the page reaches there is at most one debounce trigger
    pending and at most one countdown interval running, and they are the
    ones whose handles the refs hold: scheduling a fetch or starting a
    countdown never leaves an older timer behind. *)
Theorem one_timer_of_each_kind t0 evs :
  let s := run (init t0) evs in
  (length (timeouts (host s)) ≤ 1)%nat
  ∧ (length (intervals (host s)) ≤ 1)%nat
  ∧ Forall (λ x, emotionTimerRef (refs s) = Some x.1) (timeouts (host s))
  ∧ Forall (λ x, countdownTimerRef (refs s) = Some x.1) (intervals (host s)).
Proof.
  intros s. pose proof (Inv_reachable t0 evs) as HI. fold s in HI.
  assert (H : (length (timeouts (host s)) ≤ 1)%nat
              ∧ (length (intervals (host s)) ≤ 1)%nat).
  { subst s. clear HI. induction evs as [| ev evs IH] using rev_ind.
    - simpl. lia.
    - rewrite run_snoc. apply atMostOne_step; [apply Inv_reachable | done]. }
  destruct H as [H1 H2]. repeat split; try done.
  - apply Forall_forall. apply (inv_timeouts _ HI).
  - apply Forall_forall. apply (inv_intervals _ HI).
Qed.

Lemma videos_step s ev :
  sameSession [ev] = true →
  videos (vid s) `prefix_of` videos (vid (step s ev))
  ∧ (videos (vid s) = [] ∨ hasLoadedVideos (vid s) = true →
     videos (vid (step s ev)) = []
     ∨ hasLoadedVideos (vid (step s ev)) = true).
Proof.
  intros Hev. open_state s.
  destruct ev; try discriminate Hev; clear Hev; unfold_page; simpl.
  11: { destruct (awaitResponse o) as [m | [dv |]]; simpl; [done | |].
        - split; [apply mergeVideos_prefix | by right].
        - destruct er, cr; simpl; (split; [done | by right]). }
  all: destruct er, cr; repeat (case_match; simpl in * ); done.
Qed.

Lemma loaded_flag_step s ev :
  (videos (vid s) = [] ∨ hasLoadedVideos (vid s) = true) →
  videos (vid (step s ev)) = [] ∨ hasLoadedVideos (vid (step s ev)) = true.
Proof.
  intros H.
  destruct (sameSession [ev]) eqn:Hev; [by apply videos_step |].
  destruct ev; try discriminate Hev.
  left. open_state s. unfold_page. simpl. by destruct cr.
Qed.

(** Within a session the accumulator only grows: whatever happens short of
    scan again, a manual search included, the videos held before are the
    first videos held after, in the same order.  And in every state the
    page reaches, videos are held only if a fetch has succeeded since the
    last restart ([hasLoadedVideos]). *)
Theorem accumulator_only_grows :
  (∀ s evs,
     sameSession evs = true →
     videos (vid s) `prefix_of` videos (vid (run s evs)))
  ∧ (∀ t0 evs,
       hasLoadedVideos (vid (run (init t0) evs)) = false →
       videos (vid (run (init t0) evs)) = []).
Proof.
  split.
  - intros s evs. revert s.
    induction evs as [| ev evs IH]; intros s Hs; [done |].
    simpl in Hs. apply andb_prop in Hs as [Hev Hs]. simpl.
    etrans; [| by apply IH].
    apply videos_step. simpl. by rewrite Hev.
  - intros t0 evs.
    assert (H : videos (vid (run (init t0) evs)) = []
                ∨ hasLoadedVideos (vid (run (init t0) evs)) = true).
    { induction evs as [| ev evs IH] using rev_ind; [by left |].
      rewrite run_snoc. by apply loaded_flag_step. }
    destruct H as [H | H]; [done | congruence].
Qed.

(** A manual search after a fetch for happy has answered: the happy songs
    stay in front of what the search brings. *)
Lemma accumulator_only_grows_witness :
  let s := run happyScheduled
             [Elapse 300; TimeoutFires 2 0;
              FetchSettles (JsonBody true None [song "a"; song "b"])] in
  let evs := [ChangeQuery (js "test query"); SubmitSearch;
              FetchSettles (JsonBody true None [song "b"; song "c"])] in
  videos (vid s) = [song "a"; song "b"]
  ∧ videos (vid (run s evs)) = [song "a"; song "b"; song "c"]
  ∧ videos (vid s) `prefix_of` videos (vid (run s evs)).
Proof.
  cbv zeta. split; [by vm_compute |]. split; [by vm_compute |].
  apply (proj1 accumulator_only_grows). by vm_compute.
Defined.

Lemma leadingRun_nonmatch e l :
  head l ≠ Some e → leadingRun e l = 0.
Proof.
  destruct l as [| x l]; [done |]. simpl. intros H.
  destruct (decide (x = e)) as [-> | _]; [done | done].
Qed.

Lemma trailingRun_snoc l e :
  trailingRun (l ++ [e])
  = if decide (Some e = last l) then trailingRun l + 1 else 1.
Proof.
  unfold trailingRun. rewrite last_snoc, rev_unit. simpl.
  rewrite decide_True by done.
  destruct (decide (Some e = last l)) as [Heq | Hne].
  - rewrite <- Heq. lia.
  - rewrite leadingRun_nonmatch; [done |]. rewrite head_rev. congruence.
Qed.

Lemma run_follows_labels_step s labels ev :
  stableEmotionRef (refs s) = last labels
  ∧ stableCountRef (refs s) = trailingRun labels →
  stableEmotionRef (refs (step s ev)) = last (noteLabel labels ev)
  ∧ stableCountRef (refs (step s ev)) = trailingRun (noteLabel labels ev).
Proof.
  intros [He Hc]. destruct ev.
  3: { simpl. destruct (Qle_bool 0.9 confidence) eqn:E.
       - apply Qle_bool_iff in E.
         destruct (handleEmotionDetected_high emotion confidence s E)
           as (H1 & H2 & _).
         rewrite H1, H2, last_snoc, trailingRun_snoc, He, Hc. done.
       - rewrite handleEmotionDetected_low; [done |].
         destruct (Qlt_le_dec confidence 0.9) as [Hl | Hl]; [done |].
         apply Qle_bool_iff in Hl. congruence. }
  all: open_state s; unfold_page; simpl in *.
  all: destruct er, cr; repeat (case_match; simpl in * ); done.
Qed.

(** The stabiliser's refs are a function of the samples: in every state
    the page reaches, the stable emotion is the label of the last accepted
    sample since the last restart, and the count is the length of the run
    of that label that ends those samples (0 when there is none). *)
Theorem run_refs_follow_the_samples t0 evs :
  let s := run (init t0) evs in
  stableEmotionRef (refs s) = last (runLabels evs)
  ∧ stableCountRef (refs s) = trailingRun (runLabels evs).
Proof.
  assert (H : ∀ evs s labels,
            stableEmotionRef (refs s) = last labels
            ∧ stableCountRef (refs s) = trailingRun labels →
            stableEmotionRef (refs (run s evs))
            = last (foldl noteLabel labels evs)
            ∧ stableCountRef (refs (run s evs))
              = trailingRun (foldl noteLabel labels evs)).
  { clear evs. induction evs as [| ev evs IH]; intros s labels Hs; [done |].
    simpl. apply IH. by apply run_follows_labels_step. }
  apply H. done.
Qed.

(** ** What the page renders *)

Lemma showConsent_stays_off s ev :
  showConsent (cam s) = false → showConsent (cam (step s ev)) = false.
Proof.
  intros H. open_state s. simpl in H. subst sc.
  destruct ev; unfold_page; simpl;
    destruct er, cr; repeat (case_match; simpl in * ); done.
Qed.

Lemma waiting_step sm ev : waiting sm → waiting (View.uiStep sm ev).
Proof.
  intros Hw. unfold View.uiStep.
  destruct (View.offered sm.1 sm.2 ev) eqn:Hoff; [| done].
  destruct sm as [s m]. unfold waiting in *. simpl in *.
  destruct (showConsent (cam s)) eqn:Hsc.
  - destruct (Hw eq_refl) as (Hca & Hce & -> & Hto & Hiv).
    open_state s. simpl in *. subst sc ca ce tos ivs.
    destruct ev; try discriminate Hoff; clear Hoff;
      unfold View.feedMounted, View.cameraSection; unfold_page; simpl.
    all: destruct er, cr; repeat (case_match; simpl in * ); done.
  - intros Hs. by rewrite showConsent_stays_off in Hs.
Qed.

(** Until the user answers the consent modal the camera stays off: in
    every state reached through the events the page offers, while the
    modal is rendered the camera is not active, the feed has never been
    mounted, no camera error is shown and no timer exists. *)
Theorem camera_waits_for_consent t0 evs :
  showConsent (cam (View.uiRun t0 evs).1) = true →
  cameraActive (cam (View.uiRun t0 evs).1) = false
  ∧ (View.uiRun t0 evs).2 = false
  ∧ View.cameraSection (View.uiRun t0 evs).1 = View.Nothing
  ∧ timeouts (host (View.uiRun t0 evs).1) = []
  ∧ intervals (host (View.uiRun t0 evs).1) = [].
Proof.
  assert (H : waiting (View.uiRun t0 evs)).
  { unfold View.uiRun.
    induction evs as [| ev evs IH] using rev_ind.
    - intros _. done.
    - rewrite foldl_app. simpl. by apply waiting_step. }
  intros Hs. destruct (H Hs) as (Hca & Hce & Hm & Hto & Hiv).
  repeat split; try done.
  unfold View.cameraSection. by rewrite Hce, Hca, Hs.
Qed.

(** Before an answer: a search is possible, scan again and the feed's
    callbacks are not. *)
Lemma camera_waits_for_consent_witness :
  let evs := [ChangeQuery (js "test query"); SubmitSearch; ScanAgain;
              EmotionDetected happy 0.95; EmotionDetected happy 0.95;
              Elapse 5000] in
  requests (host (View.uiRun 100000 evs).1) = [(100000, js "test query")]
  ∧ cameraActive (cam (View.uiRun 100000 evs).1) = false
  ∧ (View.uiRun 100000 evs).2 = false
  ∧ timeouts (host (View.uiRun 100000 evs).1) = [].
Proof.
  pose (evs := [ChangeQuery (js "test query"); SubmitSearch; ScanAgain;
                EmotionDetected happy 0.95; EmotionDetected happy 0.95;
                Elapse 5000]).
  assert (H1 : showConsent (cam (View.uiRun 100000 evs).1) = true)
    by (by vm_compute).
  destruct (camera_waits_for_consent 100000 evs H1)
    as (Ha & Hb & _ & Hc & _).
  cbv zeta. split; [by vm_compute |]. by repeat split.
Defined.

(** Declining consent is not the end: the error card that follows offers
    Try Again, and taking it mounts the camera feed with the countdown at
    5, the consent modal staying closed. *)
Theorem try_again_after_declining s mounted :
  let s1 := step s DeclineConsent in
  let s2 := step s1 ScanAgain in
  View.cameraSection s1
  = View.ErrorCard
      (js "Camera access was declined. You can refresh the page to try again.")
  ∧ View.offered s1 mounted ScanAgain = true
  ∧ View.cameraSection s2 = View.FeedMounted
  ∧ showConsent (cam s2) = false
  ∧ isScanning (cam s2) = true
  ∧ scanCountdown (cam s2) = 5.
Proof.
  open_state s. unfold View.offered, View.cameraSection. unfold_page. simpl.
  by destruct cr.
Qed.

Lemma settled_not_loading o s :
  isLoadingVideos (vid (fetchVideosSettled o s)) = false.
Proof.
  open_state s. unfold_page.
  destruct (awaitResponse o) as [m | [dv |]]; simpl; [done | done |].
  by destruct er, cr.
Qed.

(** A fetch on screen.  For a keyword that [encodeURIComponent] accepts
    the request leaves and the grid shows skeletons while it is out; when
    the route answers with an error the grid shows that message, whatever
    has been accumulated; when it answers with videos the grid shows the
    merged accumulator, or the empty state when that is empty.  For a
    keyword with a lone surrogate no request leaves and the grid shows the
    error of [encodeURIComponent] at once. *)
Theorem grid_follows_the_fetch s keyword query apiKey upstream :
  let s1 := fetchVideos keyword s in
  let r := Route.GET query apiKey upstream in
  if isWellFormed keyword then
    requests (host s1) = requests (host s) ++ [(clock (host s), keyword)]
    ∧ View.videoGrid s1 = View.Skeletons
    ∧ ∃ o, Route.clientSees r = Some o
           ∧ View.videoGrid (fetchVideosSettled o s1)
             = match Route.body r with
               | Route.ErrorBody e => View.ErrorState e
               | Route.VideosBody vs =>
                   match Accumulator.mergeVideos (videos (vid s)) vs with
                   | [] => View.EmptyState
                   | merged => View.Cards merged
                   end
               end
  else
    requests (host s1) = requests (host s)
    ∧ View.videoGrid s1 = View.ErrorState uriErrorMessage.
Proof.
  intros s1 r. subst s1. unfold fetchVideos, seq.
  destruct (isWellFormed keyword); [| done].
  split; [done |]. split; [done |].
  set (s1 := sendRequest keyword _).
  destruct (settle_route_answer s1 query apiKey upstream)
    as (o & Ho & H). fold r in Ho, H.
  exists o. split; [done |].
  unfold View.videoGrid. rewrite settled_not_loading.
  destruct (Route.body r) as [e | vs].
  - destruct H as (_ & -> & He). by rewrite (errorMessages_truthy e He).
  - destruct H as (-> & -> & _). done.
Qed.

(** ** The cooldown and the settle delay together *)




(** ** A camera failure *)

(** A failure of the camera that is an [Error] ends the scan and puts the
    error card with its message on screen, but cancels no timer: the
    countdown interval and a pending debounce trigger stay in the table.
    A thrown value that is not an [Error] is not reported at all, and the
    page stays as it is. *)
Theorem camera_failure_keeps_the_timers s name :
  let s' := Feed.onCameraFailure (Some name) s in
  (∃ message,
     Feed.cameraFailureMessage (Some name) = Some message
     ∧ View.cameraSection s' = View.ErrorCard message)
  ∧ isScanning (cam s') = false
  ∧ cameraActive (cam s') = false
  ∧ host s' = host s
  ∧ refs s' = refs s
  ∧ Feed.onCameraFailure None s = s.
Proof.
  unfold Feed.onCameraFailure, Feed.cameraFailureMessage.
  open_state s. unfold View.cameraSection. unfold_page.
  repeat (destruct (decide _)); simpl; repeat split; eauto.
Qed.

End PageFacts.
